(** * Running Total Stacked Bar Chart: the transform pipeline of [visual.ts]

    A shallow embedding of [src/visual.ts] (class [Visual]) and the
    properties of its data pipeline:

      raw table -> sorted quarters -> flat records -> running totals
                -> one record per quarter -> vertical domain.

    Modelling choices.
    - A JavaScript value is a [JsValue].  Numbers are the integers
      ([JNum z]) plus [JNaN]; infinities and fractions are outside the
      model.  Addition is done in [Z]: that is the addition of IEEE doubles
      as long as the operands and the sum are among the integers a double
      holds exactly (-2^53 .. 2^53), and every statement that equates a
      total with a sum says so ([safeInteger], [exactSums]).
    - The TypeScript casts ([as number], [as string]) do nothing at run
      time, so a measure cell is any [JsValue] and [DataPoint.value] carries
      whatever [cell || 0] evaluates to.  Category names are strings.  The
      period column is a column of texts; on labels that are not texts
      [a.localeCompare] is not a function, and whether the sort throws
      depends on which comparisons the engine makes: such columns are
      outside the model, and only what holds for them too is stated about
      [update].
    - A plain object used as a dictionary ([runningTotals], a
      [StackedDataPoint]) is the [gmap string JsValue] of its own
      properties, with [Object.prototype] as its prototype: a key that is
      no own property reads as what [Object.prototype] holds for it
      ([inherited]), and an assignment to [__proto__] goes to the
      inherited setter ([jsSet]).
    - Arrays that are only read are lists.  [Array.prototype.sort] works in
      place, so [sortQuarters] acts on a heap of string arrays, which
      [update] threads through.
    - A [TypeError] (a property read on [undefined]) is the only exception
      the pipeline can raise: [buildDataArray] returns [None] for it and
      [update] completes with [TypeError].
    - [String.prototype.localeCompare] and the string-to-number conversion
      belong to the JavaScript engine; they are parameters of the model.
    - d3's layout (scales, stack generator, selections) is not modelled: the
      drawn [svg] element records what the pipeline hands to d3. *)

From stdpp Require Import functions.
From stdpp Require Import base strings list gmap pretty sorting.

(** ** JavaScript values *)

(** The primitive values, and the two kinds of object a read of a plain
    object can return: [Object.prototype] itself (through [__proto__]) and
    the built-in functions it holds, known by their [name]. *)
Inductive JsValue : Type :=
| JUndefined
| JNull
| JBool (b : bool)
| JNum (z : Z)
| JNaN
| JStr (s : string)
| JObjectPrototype
| JFunction (name : string).

#[global] Instance JsValue_eq_dec : EqDecision JsValue.
Proof. solve_decision. Defined.

(** [ToBoolean]: the falsy values are undefined, null, false, 0, NaN
    and the empty string; every object is truthy. *)
Definition ToBoolean (v : JsValue) : bool :=
  match v with
  | JUndefined | JNull | JNaN => false
  | JBool b => b
  | JNum z => negb (z =? 0)%Z
  | JStr s => negb (String.eqb s "")
  | JObjectPrototype | JFunction _ => true
  end.

(** [a || b] *)
Definition jsOr (a b : JsValue) : JsValue := if ToBoolean a then a else b.

(** The text of a built-in function, as V8 prints it (the blanks are the
    engine's choice). *)
Definition functionText (name : string) : string :=
  "function " +:+ name +:+ "() { [native code] }".

(** [ToPrimitive]: [valueOf] hands an object back, so [toString] decides. *)
Definition ToPrimitive (v : JsValue) : JsValue :=
  match v with
  | JObjectPrototype => JStr "[object Object]"
  | JFunction name => JStr (functionText name)
  | _ => v
  end.

(** [ToString]. *)
Definition ToString (v : JsValue) : string :=
  match v with
  | JUndefined => "undefined"
  | JNull => "null"
  | JBool true => "true"
  | JBool false => "false"
  | JNum z => pretty z
  | JNaN => "NaN"
  | JStr s => s
  | JObjectPrototype => "[object Object]"
  | JFunction name => functionText name
  end.

(** [ToNumber] on the primitives that are not strings; [None] is NaN. *)
Definition primToNumber (v : JsValue) : option Z :=
  match v with
  | JNull => Some 0%Z
  | JBool true => Some 1%Z
  | JBool false => Some 0%Z
  | JNum z => Some z
  | _ => None
  end.

Definition ofNumber (n : option Z) : JsValue :=
  match n with Some z => JNum z | None => JNaN end.

(** [a + b]: both operands go through [ToPrimitive]; concatenation as soon
    as one of them is a string then, numeric addition otherwise. *)
Definition jsAdd (a b : JsValue) : JsValue :=
  match ToPrimitive a, ToPrimitive b with
  | JStr _, _ | _, JStr _ => JStr (ToString a +:+ ToString b)
  | x, y =>
      ofNumber (x ← primToNumber x; y ← primToNumber y; Some (x + y)%Z)
  end.

(** *** Plain objects

    An object written [{}] or [{ quarter: ... }] is the [gmap] of its own
    properties; its prototype is [Object.prototype]. *)

(** The methods of [Object.prototype]; each is a function named like its
    key. *)
Definition objectPrototypeMethods : list string :=
  ["__defineGetter__"; "__defineSetter__"; "__lookupGetter__";
   "__lookupSetter__"; "hasOwnProperty"; "isPrototypeOf";
   "propertyIsEnumerable"; "toLocaleString"; "toString"; "valueOf"].

(** Every key a plain object inherits. *)
Definition objectPrototypeKeys : list string :=
  "__proto__" :: "constructor" :: objectPrototypeMethods.

(** What [Object.prototype] answers for [key]: the getter of
    [__proto__] gives the prototype, [constructor] is the function
    [Object]. *)
Definition inherited (key : string) : JsValue :=
  if decide (key = "__proto__") then JObjectPrototype
  else if decide (key = "constructor") then JFunction "Object"
  else if decide (key ∈ objectPrototypeMethods) then JFunction key
  else JUndefined.

(** [o[key]]: the own property, else the inherited one, else undefined. *)
Definition jsGet (o : gmap string JsValue) (key : string) : JsValue :=
  match o !! key with
  | Some v => v
  | None => inherited key
  end.

(** [o[key] = v].  An own property is overwritten.  Otherwise a property
    is created, the inherited data properties being writable; only
    [__proto__] is an accessor, whose setter creates nothing (it would
    replace the prototype if [v] were null or another object, which the
    values [update] assigns never are: see [runningTotal_kinds]). *)
Definition jsSet (o : gmap string JsValue) (key : string) (v : JsValue)
    : gmap string JsValue :=
  match o !! key with
  | Some _ => <[key := v]> o
  | None => if decide (key = "__proto__") then o else <[key := v]> o
  end.

Definition isNum (v : JsValue) : Prop := ∃ z, v = JNum z.

Definition isNullish (v : JsValue) : bool :=
  match v with JUndefined | JNull => true | _ => false end.

(** ** The heap of string arrays *)

Abbreviation ref := nat (only parsing).
Abbreviation Heap := (gmap nat (list string)) (only parsing).

(** A new array (what [Array.prototype.map] returns). *)
Definition alloc (a : list string) (h : Heap) : ref * Heap :=
  let r := fresh (dom h) in (r, <[r := a]> h).

(** ** The host's data view *)

(** [col_values]: the cells of one measure, one per row. *)
Record DataViewValueColumn := { col_values : list JsValue }.

(** [name]: the series value of the group; [group_values]: its measures. *)
Record DataViewValueColumnGroup := {
  name : string;
  group_values : list DataViewValueColumn
}.

(** [DataViewValueColumns] is an array of columns with a [grouped()]
    method; the host decides both. *)
Record DataViewValueColumns := {
  columns : list DataViewValueColumn;
  grouped : list DataViewValueColumnGroup
}.

(** [cat_values]: the labels of the period column, one per row (a
    column of texts). *)
Record DataViewCategoryColumn := { cat_values : list string }.

Record DataViewCategorical := {
  categories : option (list DataViewCategoryColumn);
  values : option DataViewValueColumns
}.

Record DataView := { categorical : option DataViewCategorical }.

Record IViewport := { width : Z; height : Z }.

Record VisualUpdateOptions := {
  dataViews : list DataView;
  viewport : IViewport
}.

(** ** The visual's own records *)

Module DataPoint.
Record t := { quarter : string; category : string; value : JsValue }.
End DataPoint.

Module ProcessedDataPoint.
Record t := {
  quarter : string;
  category : string;
  value : JsValue;
  runningTotal : JsValue
}.
End ProcessedDataPoint.

(** [StackedDataPoint]: the property ["quarter"] and one property per
    category, all in one object. *)
Abbreviation StackedDataPoint := (gmap string JsValue) (only parsing).

(** The element appended to the target: an [svg] of the viewport's size,
    with the domains of the two scales, the stack keys and the data the
    series are bound to. *)
Record SvgElement := {
  svg_width : Z;
  svg_height : Z;
  xDomain : list string;
  yDomain : JsValue * JsValue;
  stackKeys : list string;
  stackData : list StackedDataPoint
}.

(** The visual: the children of its target element.  The [host] handle is
    stored by the constructor and never read. *)
Record Visual := { target : list SvgElement }.

Inductive Completion := Normal | TypeError.

(** ** The pipeline *)

Section Pipeline.

(** [a.localeCompare(b)]: negative, zero or positive. *)
Variable localeCompare : string → string → Z.

(** [ToNumber] on a string; [None] is NaN. *)
Variable StringToNumber : string → option Z.

(** *** [Array.prototype.sort] with the comparator of [sortQuarters]

    The sort is stable: an element moves behind another one only when
    the comparator says it is greater. *)
Fixpoint insertQuarter (a : string) (sorted : list string) : list string :=
  match sorted with
  | [] => [a]
  | b :: rest =>
      if bool_decide (0 < localeCompare a b)%Z
      then b :: insertQuarter a rest
      else a :: b :: rest
  end.

Definition arraySort (quarters : list string) : list string :=
  foldr insertQuarter [] quarters.

(** [return quarters.sort((a, b) => a.localeCompare(b))]: the array is
    sorted where it is, and the same reference is returned. *)
Definition sortQuarters (quarters : ref) (h : Heap) : ref * Heap :=
  (quarters, alter arraySort quarters h).

(** *** [buildDataArray]

    [None] stands for the [TypeError] of reading a property of
    [undefined]: a group that does not exist, or a group without a
    measure as soon as one of its cells is read. *)
Definition buildDataArray (quarters seriesCategories : list string)
    (values : DataViewValueColumns) : option (list DataPoint.t) :=
  rows ← mapM (λ '(j, category),
      group ← grouped values !! j;
      let valueColumn := group_values group !! 0%nat in
      mapM (λ '(i, quarter),
          column ← valueColumn;
          let value := jsOr (default JUndefined (col_values column !! i)) (JNum 0) in
          Some {| DataPoint.quarter := quarter;
                  DataPoint.category := category;
                  DataPoint.value := value |})
        (imap pair quarters))
    (imap pair seriesCategories);
  Some (concat rows).

(** *** [computeRunningTotals] *)
Definition accumulate
    (state : gmap string JsValue * list ProcessedDataPoint.t)
    (d : DataPoint.t) : gmap string JsValue * list ProcessedDataPoint.t :=
  let '(runningTotals, processedData) := state in
  let key := DataPoint.category d in
  let runningTotals :=
    if negb (ToBoolean (jsGet runningTotals key))
    then jsSet runningTotals key (JNum 0)
    else runningTotals in
  let runningTotals :=
    jsSet runningTotals key (jsAdd (jsGet runningTotals key) (DataPoint.value d)) in
  (runningTotals,
   processedData ++
     [ {| ProcessedDataPoint.quarter := DataPoint.quarter d;
          ProcessedDataPoint.category := DataPoint.category d;
          ProcessedDataPoint.value := DataPoint.value d;
          ProcessedDataPoint.runningTotal := jsGet runningTotals key |} ]).

Definition computeRunningTotals (data : list DataPoint.t)
    : list ProcessedDataPoint.t :=
  (foldl accumulate (∅, []) data).2.

(** *** [transformToStackedData] *)
Definition matches (quarter category : string) (d : ProcessedDataPoint.t) : Prop :=
  ProcessedDataPoint.quarter d = quarter ∧ ProcessedDataPoint.category d = category.

#[global] Instance matches_dec quarter category d :
  Decision (matches quarter category d).
Proof. unfold matches. apply _. Defined.

(** [processedData.find(d => d.quarter === quarter && d.category === category)] *)
Definition findPoint (processedData : list ProcessedDataPoint.t)
    (quarter category : string) : option ProcessedDataPoint.t :=
  snd <$> list_find (matches quarter category) processedData.

Definition stackedField (processedData : list ProcessedDataPoint.t)
    (quarter category : string) : JsValue :=
  match findPoint processedData quarter category with
  | Some filteredData => ProcessedDataPoint.runningTotal filteredData
  | None => JNum 0
  end.

Definition transformToStackedData (processedData : list ProcessedDataPoint.t)
    (quarters seriesCategories : list string) : list StackedDataPoint :=
  foldl (λ stackedData quarter,
      let dataPoint :=
        foldl (λ (dataPoint : StackedDataPoint) category,
            jsSet dataPoint category (stackedField processedData quarter category))
          {[ "quarter" := JStr quarter ]} seriesCategories in
      stackedData ++ [dataPoint])
    [] quarters.

(** *** The vertical domain *)

(** [ToNumber]. *)
Definition ToNumber (v : JsValue) : option Z :=
  match ToPrimitive v with
  | JStr s => StringToNumber s
  | p => primToNumber p
  end.

(** [a < b]: two strings are compared by their code units, anything else
    as numbers; an undefined comparison (NaN) counts as false. *)
Definition jsLt (a b : JsValue) : bool :=
  match ToPrimitive a, ToPrimitive b with
  | JStr s, JStr t => String.ltb s t
  | _, _ =>
      match ToNumber a, ToNumber b with
      | Some x, Some y => bool_decide (x < y)%Z
      | _, _ => false
      end
  end.

(** [a >= b] *)
Definition jsGe (a b : JsValue) : bool :=
  match ToPrimitive a, ToPrimitive b with
  | JStr s, JStr t => negb (String.ltb s t)
  | _, _ =>
      match ToNumber a, ToNumber b with
      | Some x, Some y => bool_decide (y ≤ x)%Z
      | _, _ => false
      end
  end.

(** [d3.max] on the values its accessor returned: null, undefined and
    NaN are skipped, and no comparable value gives undefined.
    <<
      if (value != null
          && (max < value || (max === undefined && value >= value)))
        max = value;
    >> *)
Definition d3_max (values : list JsValue) : JsValue :=
  foldl (λ max value,
      if negb (isNullish value)
         && (jsLt max value || (bool_decide (max = JUndefined) && jsGe value value))
      then value else max)
    JUndefined values.

(** The accessor handed to [d3.max]:
    [total += d[category] as number || 0] for every category. *)
Definition stackTotal (seriesCategories : list string) (d : StackedDataPoint)
    : JsValue :=
  foldl (λ total category, jsAdd total (jsOr (jsGet d category) (JNum 0)))
    (JNum 0) seriesCategories.

Definition maxY (stackedData : list StackedDataPoint)
    (seriesCategories : list string) : JsValue :=
  jsOr (d3_max (stackTotal seriesCategories <$> stackedData)) (JNum 0).

(** [.domain([0, maxY])] of the vertical scale. *)
Definition yScaleDomain (stackedData : list StackedDataPoint)
    (seriesCategories : list string) : JsValue * JsValue :=
  (JNum 0, maxY stackedData seriesCategories).

(** *** [update] *)
Definition update (options : VisualUpdateOptions) (this : Visual) (h : Heap)
    : Completion * Visual * Heap :=
  (* while (this.target.firstChild) this.target.removeChild(...) *)
  let this := {| target := [] |} in
  match dataViews options !! 0%nat with
  | None => (Normal, this, h)
  | Some dataView =>
  match categorical dataView with
  | None => (Normal, this, h)
  | Some categorical =>
  match categories categorical, values categorical with
  | None, _ | _, None => (Normal, this, h)
  | Some categories, Some values =>
      if bool_decide (length categories = 0%nat)
         || bool_decide (length (columns values) = 0%nat)
      then (Normal, this, h)
      else
        match categories !! 0%nat with
        | None => (TypeError, this, h)
        | Some category =>
            (* category.values.map(value => value as string) *)
            let '(quarters, h) := alloc (cat_values category) h in
            let '(quarters, h) := sortQuarters quarters h in
            let quarters := default [] (h !! quarters) in
            let seriesCategories := name <$> grouped values in
            match buildDataArray quarters seriesCategories values with
            | None => (TypeError, this, h)
            | Some data =>
                let processedData := computeRunningTotals data in
                let stackedData :=
                  transformToStackedData processedData quarters seriesCategories in
                let svg :=
                  {| svg_width := width (viewport options);
                     svg_height := height (viewport options);
                     xDomain := quarters;
                     yDomain := yScaleDomain stackedData seriesCategories;
                     stackKeys := seriesCategories;
                     stackData := stackedData |} in
                (Normal, {| target := target this ++ [svg] |}, h)
            end
        end
  end end end.

End Pipeline.

(** A comparator to run the model with: the order of the code units. *)
Definition compareCodeUnits (a b : string) : Z :=
  match String.compare a b with
  | Lt => (-1)%Z
  | Eq => 0%Z
  | Gt => 1%Z
  end.

Definition noStringNumbers (s : string) : option Z := None.

(** ** Vocabulary of the statements *)

(** [a] may stand before [b] in a sorted array. *)
Definition inOrder (localeCompare : string → string → Z) (a b : string) : Prop :=
  (localeCompare a b ≤ 0)%Z.

(** The first measure of the [j]-th group, the cell it holds in row [i]
    (undefined when there is none) and the records [buildDataArray] pushes
    when nothing throws. *)
Definition firstMeasure (values : DataViewValueColumns) (j : nat)
    : option DataViewValueColumn :=
  group ← grouped values !! j; group_values group !! 0%nat.

Definition cell (values : DataViewValueColumns) (j i : nat) : JsValue :=
  default JUndefined (column ← firstMeasure values j; col_values column !! i).

Definition flatRow (values : DataViewValueColumns) (quarters : list string)
    (j : nat) (category : string) : list DataPoint.t :=
  imap (λ i quarter,
      {| DataPoint.quarter := quarter;
         DataPoint.category := category;
         DataPoint.value := jsOr (cell values j i) (JNum 0) |}) quarters.

Definition flatRecords (quarters seriesCategories : list string)
    (values : DataViewValueColumns) : list DataPoint.t :=
  concat (imap (flatRow values quarters) seriesCategories).


(** The record [computeRunningTotals] pushes for [d], the dictionary of
    accumulators after [d], and the records pushed from a given dictionary
    on. *)
Definition processed (d : DataPoint.t) (total : JsValue) : ProcessedDataPoint.t :=
  {| ProcessedDataPoint.quarter := DataPoint.quarter d;
     ProcessedDataPoint.category := DataPoint.category d;
     ProcessedDataPoint.value := DataPoint.value d;
     ProcessedDataPoint.runningTotal := total |}.

Definition totalsAfter (runningTotals : gmap string JsValue) (d : DataPoint.t)
    : gmap string JsValue :=
  (accumulate (runningTotals, []) d).1.

Fixpoint emitFrom (runningTotals : gmap string JsValue) (data : list DataPoint.t)
    : list ProcessedDataPoint.t :=
  match data with
  | [] => []
  | d :: rest =>
      let runningTotals := totalsAfter runningTotals d in
      processed d (jsGet runningTotals (DataPoint.category d))
        :: emitFrom runningTotals rest
  end.

(** The running totals as the specification words them: one accumulator
    per category, 0 at the start; the records are taken in input order,
    each adds its value to the accumulator of its category and carries the
    accumulator's value after the addition. *)
Fixpoint runningTotalsSpec (accumulator : string → JsValue)
    (data : list DataPoint.t) : list ProcessedDataPoint.t :=
  match data with
  | [] => []
  | d :: rest =>
      let total := jsAdd (accumulator (DataPoint.category d)) (DataPoint.value d) in
      processed d total
        :: runningTotalsSpec (<[DataPoint.category d := total]> accumulator) rest
  end.

(** A key the assignment [o[key] = v] stores under: every key but
    [__proto__], and that one too once it is an own property. *)
Definition storable (o : gmap string JsValue) (key : string) : Prop :=
  is_Some (o !! key) ∨ key ≠ "__proto__".


(** The records of one category, and the partial sums of a series. *)
Definition ofCategory (c : string) (data : list DataPoint.t) : list DataPoint.t :=
  filter (λ d, DataPoint.category d = c) data.

Definition emittedFor (c : string) (processedData : list ProcessedDataPoint.t)
    : list ProcessedDataPoint.t :=
  filter (λ p, ProcessedDataPoint.category p = c) processedData.

Fixpoint partialSums (start : Z) (zs : list Z) : list Z :=
  match zs with
  | [] => []
  | z :: rest => (start + z)%Z :: partialSums (start + z) rest
  end.

Definition sumZ (zs : list Z) : Z := foldr Z.add 0%Z zs.

(** The integers a double holds exactly, and the series whose sums, taken
    from 0 in order, all stay among them: there the model's addition in
    [Z] is the addition of the code. *)
Definition safeInteger (z : Z) : Prop := (- 2 ^ 53 ≤ z ≤ 2 ^ 53)%Z.

Definition exactSums (zs : list Z) : Prop :=
  Forall safeInteger zs ∧ Forall safeInteger (partialSums 0 zs).

(** The number a value stands for in a sum of numbers ([0] for what is not
    one), and the sum of the values of one category. *)
Definition numberOf (v : JsValue) : Z :=
  match v with JNum z => z | _ => 0%Z end.

Definition categorySum (c : string) (data : list DataPoint.t) : Z :=
  sumZ (numberOf ∘ DataPoint.value <$> ofCategory c data).

(** The object [transformToStackedData] builds for one quarter. *)
Definition stackedRecord (processedData : list ProcessedDataPoint.t)
    (seriesCategories : list string) (quarter : string) : gmap string JsValue :=
  foldl (λ (dataPoint : gmap string JsValue) category,
      jsSet dataPoint category (stackedField processedData quarter category))
    {[ "quarter" := JStr quarter ]} seriesCategories.

(** The sum of the category fields of a stacked record. *)
Definition fieldSum (seriesCategories : list string) (d : gmap string JsValue) : Z :=
  sumZ (numberOf ∘ jsGet d <$> seriesCategories).

(** The quarter, category and value of a processed record. *)
Definition toDataPoint (p : ProcessedDataPoint.t) : DataPoint.t :=
  {| DataPoint.quarter := ProcessedDataPoint.quarter p;
     DataPoint.category := ProcessedDataPoint.category p;
     DataPoint.value := ProcessedDataPoint.value p |}.

(** ** Scenarios *)

(** A group with one measure of numbers. *)
Definition numberColumn (zs : list Z) : DataViewValueColumn :=
  {| col_values := JNum <$> zs |}.

Definition numberGroup (category : string) (zs : list Z) : DataViewValueColumnGroup :=
  {| name := category; group_values := [numberColumn zs] |}.

Definition numberTable (series : list (string * list Z)) : DataViewValueColumns :=
  {| columns := (λ s, numberColumn s.2) <$> series;
     grouped := (λ s, numberGroup s.1 s.2) <$> series |}.

(** The basic scenario: A = [10, 5] and B = [3, 7]. *)
Definition basicValues : DataViewValueColumns :=
  numberTable [("A", [10; 5]%Z); ("B", [3; 7]%Z)].

Definition point (quarter category : string) (value : Z) : DataPoint.t :=
  {| DataPoint.quarter := quarter;
     DataPoint.category := category;
     DataPoint.value := JNum value |}.

(** A heap with the unsorted period column at reference 0. *)
Definition unsortedHeap : gmap nat (list string) :=
  {[ 0%nat := ["2023Q2"; "2023Q1"] ]}.


(** A table whose first group has a second measure. *)
Definition twoMeasureValues : DataViewValueColumns :=
  {| columns := [numberColumn [10; 5]%Z; numberColumn [99; 98]%Z;
                 numberColumn [3; 7]%Z];
     grouped := [ {| name := "A";
                     group_values := [numberColumn [10; 5]%Z;
                                      numberColumn [99; 98]%Z] |};
                  numberGroup "B" [3; 7]%Z ] |}.

(** The running totals of the basic scenario. *)
Definition basicProcessed : list ProcessedDataPoint.t :=
  [processed (point "2023Q1" "A" 10) (JNum 10);
   processed (point "2023Q2" "A" 5) (JNum 15);
   processed (point "2023Q1" "B" 3) (JNum 3);
   processed (point "2023Q2" "B" 7) (JNum 10)].

(** The flat records of the basic scenario. *)
Definition basicData : list DataPoint.t :=
  [point "2023Q1" "A" 10; point "2023Q2" "A" 5;
   point "2023Q1" "B" 3; point "2023Q2" "B" 7].

(** A series named like the property [constructor] that every plain
    object inherits, and one named [__proto__]. *)
Definition constructorData : list DataPoint.t :=
  [point "2023Q1" "constructor" 0; point "2023Q2" "constructor" 4].

Definition constructorValues : DataViewValueColumns :=
  numberTable [("constructor", [10; 5]%Z)].

Definition protoValues : DataViewValueColumns :=
  numberTable [("__proto__", [10]%Z)].

(** A period column with a repeated label, and a series that goes down. *)
Definition repeatedQuarters : list string := ["2023Q1"; "2023Q1"].

Definition decreasingValues : DataViewValueColumns :=
  numberTable [("A", [5; -3]%Z)].

(** The same period column with a series of non-negative values. *)
Definition repeatedValues : DataViewValueColumns :=
  numberTable [("A", [5; 3]%Z)].

Definition repeatedData : list DataPoint.t :=
  [point "2023Q1" "A" 5; point "2023Q1" "A" 3].

(** The table in which every cell went through [|| 0]. *)
Definition zeroColumn (column : DataViewValueColumn) : DataViewValueColumn :=
  {| col_values := (λ v, jsOr v (JNum 0)) <$> col_values column |}.

Definition zeroGroup (group : DataViewValueColumnGroup) : DataViewValueColumnGroup :=
  {| name := name group; group_values := zeroColumn <$> group_values group |}.

Definition zeroValues (values : DataViewValueColumns) : DataViewValueColumns :=
  {| columns := zeroColumn <$> columns values;
     grouped := zeroGroup <$> grouped values |}.

Definition zeroOptions (options : VisualUpdateOptions) : VisualUpdateOptions :=
  {| dataViews :=
       (λ dataView,
          {| categorical :=
               (λ c, {| categories := categories c;
                        values := zeroValues <$> values c |})
                 <$> categorical dataView |}) <$> dataViews options;
     viewport := viewport options |}.

(** The update has nothing to draw from: no data view, no categorical
    data, no category column, or no value column. *)
Definition nothingToDraw (options : VisualUpdateOptions) : Prop :=
  match dataViews options !! 0%nat with
  | None => True
  | Some dataView =>
      match categorical dataView with
      | None => True
      | Some c =>
          categories c = None ∨ categories c = Some []
          ∨ values c = None ∨ (∃ v, values c = Some v ∧ columns v = [])
      end
  end.

(** A table with a text cell. *)
Definition textValues : DataViewValueColumns :=
  {| columns := [ {| col_values := [JNum 4; JStr "n/a"] |} ];
     grouped := [ {| name := "A";
                     group_values := [ {| col_values := [JNum 4; JStr "n/a"] |} ] |} ] |}.

(** A table with a null cell and a cell that is missing. *)
Definition sparseValues : DataViewValueColumns :=
  {| columns := [ {| col_values := [JNull; JNum 4] |} ];
     grouped := [ {| name := "A";
                     group_values := [ {| col_values := [JNull; JNum 4] |} ] |} ] |}.

Definition emptyOptions : VisualUpdateOptions :=
  {| dataViews := []; viewport := {| width := 300; height := 200 |} |}.

(** A visual whose target still shows an earlier drawing. *)
Definition staleVisual : Visual :=
  {| target := [ {| svg_width := 300; svg_height := 200;
                    xDomain := []; yDomain := (JNum 0, JNum 0);
                    stackKeys := []; stackData := [] |} ] |}.

(** The stacked records of the basic scenario. *)
Definition basicStacked : list (gmap string JsValue) :=
  [ {[ "quarter" := JStr "2023Q1"; "A" := JNum 10; "B" := JNum 3 ]};
    {[ "quarter" := JStr "2023Q2"; "A" := JNum 15; "B" := JNum 10 ]} ].

(** ** Vocabulary of the further properties *)

(** The period column and the value columns [update] goes on with, once
    its guards are passed. *)
Definition tableOf (options : VisualUpdateOptions)
    : option (DataViewCategoryColumn * DataViewValueColumns) :=
  dataView ← dataViews options !! 0%nat;
  c ← categorical dataView;
  cats ← categories c;
  v ← values c;
  if bool_decide (length cats = 0%nat) || bool_decide (length (columns v) = 0%nat)
  then None
  else category ← cats !! 0%nat; Some (category, v).

(** The [svg] element [update] appends for sorted quarters and their flat
    records. *)
Definition chart (StringToNumber : string → option Z)
    (options : VisualUpdateOptions) (quarters : list string)
    (values : DataViewValueColumns) (data : list DataPoint.t) : SvgElement :=
  let seriesCategories := name <$> grouped values in
  let stackedData :=
    transformToStackedData (computeRunningTotals data) quarters seriesCategories in
  {| svg_width := width (viewport options);
     svg_height := height (viewport options);
     xDomain := quarters;
     yDomain := yScaleDomain StringToNumber stackedData seriesCategories;
     stackKeys := seriesCategories;
     stackData := stackedData |}.

(** A comparator that only looks at the first character, to tell labels
    apart that it treats alike. *)
Definition compareInitials (a b : string) : Z :=
  compareCodeUnits (String.substring 0 1 a) (String.substring 0 1 b).

(** Scenarios of the further properties. *)
Definition tiedHeap : gmap nat (list string) :=
  {[ 0%nat := ["b2"; "a1"; "b1"] ]}.

Definition nanData : list DataPoint.t :=
  [point "2023Q1" "A" 4;
   {| DataPoint.quarter := "2023Q2"; DataPoint.category := "A";
      DataPoint.value := JNaN |};
   point "2023Q3" "A" 3].

Definition textData : list DataPoint.t :=
  [point "2023Q1" "A" 4;
   {| DataPoint.quarter := "2023Q2"; DataPoint.category := "A";
      DataPoint.value := JStr "n/a" |};
   point "2023Q3" "A" 3].

Definition periodMajorData : list DataPoint.t :=
  [point "2023Q1" "A" 10; point "2023Q1" "B" 3;
   point "2023Q2" "A" 5; point "2023Q2" "B" 7].

Definition optionsOf (periods : list string) (values : DataViewValueColumns)
    : VisualUpdateOptions :=
  {| dataViews :=
       [ {| categorical :=
              Some {| categories := Some [ {| cat_values := periods |} ];
                      values := Some values |} |} ];
     viewport := {| width := 300; height := 200 |} |}.

(** A group without a measure. *)
Definition bareValues : DataViewValueColumns :=
  {| columns := [numberColumn [1]%Z];
     grouped := [ {| name := "A"; group_values := [] |} ] |}.

(** * Lemmas *)

(** Tactics for the side conditions on concrete names and series: a name
    is none of the inherited ones; the sums of a series are exact. *)
Ltac plain_name :=
  unfold objectPrototypeKeys, objectPrototypeMethods;
  rewrite !not_elem_of_cons; repeat split;
  first [discriminate | apply not_elem_of_nil].

Ltac exact_sums :=
  split; cbn [partialSums]; repeat constructor; unfold safeInteger; lia.


(** ** Sorting *)

Section SortFacts.
Variable localeCompare : string → string → Z.

Lemma insertQuarter_Permutation a sorted :
  insertQuarter localeCompare a sorted ≡ₚ a :: sorted.
Proof.
  induction sorted as [|b rest IH]; simpl; [done|].
  case_bool_decide; [|done].
  rewrite IH. apply Permutation_swap.
Qed.

Lemma arraySort_Permutation quarters :
  arraySort localeCompare quarters ≡ₚ quarters.
Proof.
  induction quarters as [|a quarters IH]; simpl; [done|].
  by rewrite insertQuarter_Permutation, IH.
Qed.

Hypothesis localeCompare_swap :
  ∀ a b, (0 < localeCompare a b)%Z → (localeCompare b a ≤ 0)%Z.

Lemma insertQuarter_Sorted a sorted :
  Sorted (inOrder localeCompare) sorted →
  Sorted (inOrder localeCompare) (insertQuarter localeCompare a sorted).
Proof.
  induction 1 as [|b rest Hrest IH Hhd]; simpl.
  - by repeat constructor.
  - case_bool_decide as Hcmp.
    + constructor; [done|].
      destruct Hhd as [|c rest' Hbc]; simpl.
      * constructor. by apply localeCompare_swap.
      * case_bool_decide; constructor; [done | by apply localeCompare_swap].
    + constructor; [by constructor|]. constructor. unfold inOrder. lia.
Qed.

Lemma arraySort_Sorted quarters :
  Sorted (inOrder localeCompare) (arraySort localeCompare quarters).
Proof.
  induction quarters as [|a quarters IH]; simpl; [constructor|].
  by apply insertQuarter_Sorted.
Qed.
End SortFacts.

(** ** Flat records *)

Lemma mapM_imap_Some {A B C} (f : C → option B) (h : nat → A → C)
    (g : nat → A → B) (l : list A) :
  (∀ i x, l !! i = Some x → f (h i x) = Some (g i x)) →
  mapM f (imap h l) = Some (imap g l).
Proof.
  revert h g. induction l as [|x l IH]; intros h g Hf; simpl; [done|].
  rewrite (Hf 0%nat x eq_refl). simpl.
  rewrite (IH (h ∘ S) (g ∘ S)); [done|].
  intros i y Hi. apply (Hf (S i) y Hi).
Qed.

Lemma mapM_imap_inv {A B C} (f : C → option B) (h : nat → A → C)
    (g : nat → A → B) (l : list A) (k : list B) :
  mapM f (imap h l) = Some k →
  (∀ i x y, l !! i = Some x → f (h i x) = Some y → y = g i x) →
  k = imap g l.
Proof.
  revert h g k. induction l as [|x l IH]; intros h g k Hk Hf; simpl in *.
  - by injection Hk as <-.
  - destruct (f (h 0%nat x)) as [y|] eqn:Hy; simpl in Hk; [|done].
    destruct (mapM f (imap (h ∘ S) l)) as [k'|] eqn:Hk'; simpl in Hk; [|done].
    injection Hk as <-. f_equal.
    + by apply (Hf 0%nat x y).
    + apply (IH (h ∘ S)); [done|]. intros i x' y' Hi. apply (Hf (S i) x' y' Hi).
Qed.

Lemma buildDataArray_inv quarters seriesCategories values data :
  buildDataArray quarters seriesCategories values = Some data →
  data = flatRecords quarters seriesCategories values.
Proof.
  unfold buildDataArray, flatRecords. intros Hdata.
  destruct (mapM _ _) as [rows|] eqn:Hrows; simpl in Hdata; [|done].
  injection Hdata as <-. f_equal.
  apply (mapM_imap_inv _ _ _ _ _ Hrows).
  intros j category row _ Hrow. simpl in Hrow.
  destruct (grouped values !! j) as [group|] eqn:Hgroup; simpl in Hrow; [|done].
  apply (mapM_imap_inv _ _ _ _ _ Hrow).
  intros i quarter d _ Hd. simpl in Hd.
  destruct (group_values group !! 0%nat) as [column|] eqn:Hcolumn; simpl in Hd; [|done].
  injection Hd as <-. unfold cell, firstMeasure.
  by rewrite Hgroup; simpl; rewrite Hcolumn.
Qed.

Lemma buildDataArray_Some quarters seriesCategories values :
  (∀ j, (j < length seriesCategories)%nat → is_Some (firstMeasure values j)) →
  buildDataArray quarters seriesCategories values
  = Some (flatRecords quarters seriesCategories values).
Proof.
  intros Hwell. unfold buildDataArray, flatRecords.
  rewrite (mapM_imap_Some _ _ (flatRow values quarters)); [done|].
  intros j category Hj. simpl.
  destruct (Hwell j) as [column Hcolumn]; [by eapply lookup_lt_Some|].
  unfold firstMeasure in Hcolumn.
  destruct (grouped values !! j) as [group|] eqn:Hgroup; simpl in *; [|done].
  apply mapM_imap_Some. intros i quarter Hi. simpl.
  rewrite Hcolumn. simpl. unfold cell, firstMeasure.
  by rewrite Hgroup; simpl; rewrite Hcolumn.
Qed.

Lemma length_flatRow values quarters j category :
  length (flatRow values quarters j category) = length quarters.
Proof. apply length_imap. Qed.

Lemma lookup_concat_rows {A} (rows : list (list A)) (n j i : nat) row x :
  Forall (λ r, length r = n) rows →
  rows !! j = Some row → row !! i = Some x →
  concat rows !! (j * n + i)%nat = Some x.
Proof.
  intros Hlen. revert j. induction Hlen as [|r rows Hr Hrows IH]; intros j Hj Hi; [done|].
  destruct j as [|j]; simpl in *.
  - injection Hj as ->. by rewrite lookup_app_l; [|by eapply lookup_lt_Some].
  - rewrite lookup_app_r; [|lia].
    replace (n + j * n + i - length r)%nat with (j * n + i)%nat by lia. by apply IH.
Qed.

Lemma length_concat_rows {A} (rows : list (list A)) (n : nat) :
  Forall (λ r, length r = n) rows → length (concat rows) = (length rows * n)%nat.
Proof. induction 1 as [|r rows Hr _ IH]; simpl; [done|]. rewrite length_app. lia. Qed.

Lemma flatRows_length values quarters seriesCategories :
  Forall (λ r, length r = length quarters)
    (imap (flatRow values quarters) seriesCategories).
Proof.
  apply Forall_lookup. intros j row Hj.
  rewrite list_lookup_imap in Hj.
  destruct (seriesCategories !! j); simplify_eq/=. apply length_flatRow.
Qed.

Lemma length_flatRecords quarters seriesCategories values :
  length (flatRecords quarters seriesCategories values)
  = (length seriesCategories * length quarters)%nat.
Proof.
  unfold flatRecords.
  rewrite (length_concat_rows _ _ (flatRows_length _ _ _)). by rewrite length_imap.
Qed.

Lemma lookup_flatRecords quarters seriesCategories values j i category quarter :
  seriesCategories !! j = Some category →
  quarters !! i = Some quarter →
  flatRecords quarters seriesCategories values !! (j * length quarters + i)%nat
  = Some {| DataPoint.quarter := quarter;
            DataPoint.category := category;
            DataPoint.value := jsOr (cell values j i) (JNum 0) |}.
Proof.
  intros Hj Hi. unfold flatRecords.
  eapply lookup_concat_rows; [apply flatRows_length| |].
  - rewrite list_lookup_imap, Hj. done.
  - unfold flatRow. rewrite list_lookup_imap, Hi. done.
Qed.

(** ** Running totals *)

Lemma pretty_N_go_nonempty x s : s ≠ "" → pretty_N_go x s ≠ "".
Proof.
  revert s. induction (N.lt_wf_0 x) as [x _ IH]; intros s Hs.
  destruct (decide (x = 0%N)) as [->|Hx]; [by rewrite pretty_N_go_0|].
  rewrite pretty_N_go_step by lia. apply IH; [apply N.div_lt; lia | done].
Qed.

Lemma pretty_Z_nonempty (z : Z) : pretty z ≠ "".
Proof.
  destruct z as [|p|p]; [done| |done].
  unfold pretty, pretty_Z, pretty, pretty_positive, pretty, pretty_N.
  case_decide; [done|].
  rewrite pretty_N_go_step by lia. by apply pretty_N_go_nonempty.
Qed.

Lemma jsOr_num z : jsOr (JNum z) (JNum 0) = JNum z.
Proof.
  unfold jsOr. simpl. destruct (Z.eqb_spec z 0) as [->|]; done.
Qed.

(** Reading and writing a plain object. *)
Lemma inherited_plain key : key ∉ objectPrototypeKeys → inherited key = JUndefined.
Proof.
  unfold objectPrototypeKeys, inherited. intros Hkey.
  apply not_elem_of_cons in Hkey as [Hproto Hkey].
  apply not_elem_of_cons in Hkey as [Hconstructor Hmethod].
  by repeat case_decide.
Qed.

Lemma jsGet_empty key : key ∉ objectPrototypeKeys → jsGet ∅ key = JUndefined.
Proof. intros Hkey. unfold jsGet. rewrite lookup_empty. by apply inherited_plain. Qed.

Lemma empty_accumulator key :
  key ∉ objectPrototypeKeys → jsOr (jsGet ∅ key) (JNum 0) = JNum 0.
Proof. intros Hkey. by rewrite jsGet_empty. Qed.

Lemma proto_inherited : "__proto__" ∈ objectPrototypeKeys.
Proof. apply list_elem_of_here. Qed.


Lemma jsSet_storable o key v : storable o key → jsSet o key v = <[key := v]> o.
Proof.
  intros [[w Hw]|Hkey]; unfold jsSet; [by rewrite Hw|].
  destruct (o !! key); [done|]. by case_decide.
Qed.

Lemma lookup_jsSet_ne o key key' v : key ≠ key' → jsSet o key v !! key' = o !! key'.
Proof.
  intros Hkey. unfold jsSet.
  destruct (o !! key); [|case_decide]; try done; by rewrite lookup_insert_ne.
Qed.

Lemma lookup_jsSet_eq o key v :
  jsSet o key v !! key
  = match o !! key with
    | Some _ => Some v
    | None => if decide (key = "__proto__") then None else Some v
    end.
Proof.
  unfold jsSet. destruct (o !! key) eqn:Hlookup; [by rewrite lookup_insert_eq|].
  destruct (decide (key = "__proto__")); [done|by rewrite lookup_insert_eq].
Qed.

Lemma jsGet_jsSet_ne o key key' v :
  key ≠ key' → jsGet (jsSet o key v) key' = jsGet o key'.
Proof. intros Hkey. unfold jsGet. by rewrite lookup_jsSet_ne. Qed.

Lemma jsGet_jsSet_eq o key v : storable o key → jsGet (jsSet o key v) key = v.
Proof.
  intros Hkey. rewrite jsSet_storable by done. unfold jsGet.
  by rewrite lookup_insert_eq.
Qed.

Lemma storable_jsSet o key key' v : storable o key' → storable (jsSet o key v) key'.
Proof.
  intros [Hown|Hkey]; [|by right]. left.
  destruct (decide (key = key')) as [->|Hne]; [|by rewrite lookup_jsSet_ne].
  rewrite jsSet_storable by by left. by rewrite lookup_insert_eq.
Qed.

(** An accumulator that reads as a number is an own property. *)
Lemma storable_number o key z :
  jsOr (jsGet o key) (JNum 0) = JNum z → storable o key.
Proof.
  unfold storable, jsGet, inherited. intros Hz.
  destruct (o !! key); [by left|]. right. intros ->. done.
Qed.


Lemma accumulate_eq runningTotals processedData d :
  accumulate (runningTotals, processedData) d
  = (totalsAfter runningTotals d,
     processedData ++
       [processed d (jsGet (totalsAfter runningTotals d) (DataPoint.category d))]).
Proof. done. Qed.

Lemma foldl_accumulate runningTotals processedData data :
  (foldl accumulate (runningTotals, processedData) data).2
  = processedData ++ emitFrom runningTotals data.
Proof.
  revert runningTotals processedData.
  induction data as [|d rest IH]; intros runningTotals processedData; cbn [foldl].
  - by rewrite app_nil_r.
  - rewrite accumulate_eq, IH, <-app_assoc. done.
Qed.

Lemma computeRunningTotals_emitFrom data :
  computeRunningTotals data = emitFrom ∅ data.
Proof. unfold computeRunningTotals. by rewrite foldl_accumulate. Qed.

(** The accumulator of the record's category: [0] replaces a falsy one,
    then the value is added. *)
Lemma totalsAfter_same runningTotals d :
  storable runningTotals (DataPoint.category d) →
  jsGet (totalsAfter runningTotals d) (DataPoint.category d)
  = jsAdd (jsOr (jsGet runningTotals (DataPoint.category d)) (JNum 0))
      (DataPoint.value d).
Proof.
  intros Hkey. unfold totalsAfter, accumulate, jsOr. cbn [fst].
  destruct (ToBoolean _) eqn:Htruthy; cbn [negb].
  - by rewrite jsGet_jsSet_eq.
  - rewrite jsGet_jsSet_eq by by apply storable_jsSet.
    by rewrite jsGet_jsSet_eq.
Qed.

(** The other accumulators are not touched. *)
Lemma totalsAfter_other runningTotals d key :
  key ≠ DataPoint.category d →
  jsGet (totalsAfter runningTotals d) key = jsGet runningTotals key.
Proof.
  intros Hkey. unfold totalsAfter, accumulate. cbn [fst].
  rewrite jsGet_jsSet_ne by done.
  destruct (ToBoolean _); cbn [negb]; [done|]. by rewrite jsGet_jsSet_ne.
Qed.

Lemma totalsAfter_lookup_other runningTotals d key :
  key ≠ DataPoint.category d →
  totalsAfter runningTotals d !! key = runningTotals !! key.
Proof.
  intros Hkey. unfold totalsAfter, accumulate. cbn [fst].
  rewrite lookup_jsSet_ne by done.
  destruct (ToBoolean _); cbn [negb]; [done|]. by rewrite lookup_jsSet_ne.
Qed.


(** A dictionary that starts without an own property [__proto__] never
    gets one, and what it reads there is [Object.prototype]. *)
Lemma totalsAfter_proto runningTotals d :
  runningTotals !! "__proto__" = None →
  totalsAfter runningTotals d !! "__proto__" = None.
Proof.
  intros Hnone.
  destruct (decide ("__proto__" = DataPoint.category d)) as [Hd|Hd];
    [|by rewrite totalsAfter_lookup_other].
  unfold totalsAfter, accumulate. cbn [fst]. rewrite <-Hd.
  rewrite lookup_jsSet_eq.
  destruct (negb _); [rewrite lookup_jsSet_eq|]; by rewrite Hnone.
Qed.

Lemma emitFrom_proto runningTotals data k p :
  runningTotals !! "__proto__" = None →
  emitFrom runningTotals data !! k = Some p →
  ProcessedDataPoint.category p = "__proto__" →
  ProcessedDataPoint.runningTotal p = JObjectPrototype.
Proof.
  revert runningTotals k.
  induction data as [|d rest IH]; intros runningTotals k Hnone Hp Hc; [done|].
  cbn [emitFrom] in Hp. cbn zeta in Hp.
  destruct k as [|k]; cbn [lookup list_lookup] in Hp.
  - injection Hp as <-. simpl in *. rewrite Hc. unfold jsGet.
    rewrite <-Hc at 1. by rewrite Hc, totalsAfter_proto.
  - apply (IH (totalsAfter runningTotals d) k); [|done..].
    by apply totalsAfter_proto.
Qed.

(** The values [+] returns. *)
Lemma jsAdd_kinds a b :
  (∃ z, jsAdd a b = JNum z) ∨ jsAdd a b = JNaN ∨ ∃ s, jsAdd a b = JStr s.
Proof.
  unfold jsAdd.
  destruct (ToPrimitive a) as [| |[]|x| |s| |f], (ToPrimitive b) as [| |[]|y| |t| |g];
    simpl; eauto.
Qed.

(** The running totals [computeRunningTotals] emits are numbers, NaN or
    texts, and [Object.prototype] for the category [__proto__]: neither
    null nor another object, so the assignment of a running total to a
    stacked record leaves the prototype of the record as it is. *)
Lemma runningTotal_kinds runningTotals data k p :
  emitFrom runningTotals data !! k = Some p →
  (∃ z, ProcessedDataPoint.runningTotal p = JNum z)
  ∨ ProcessedDataPoint.runningTotal p = JNaN
  ∨ (∃ s, ProcessedDataPoint.runningTotal p = JStr s)
  ∨ ProcessedDataPoint.runningTotal p = JObjectPrototype.
Proof.
  revert runningTotals k.
  induction data as [|d rest IH]; intros runningTotals k Hp; [done|].
  cbn [emitFrom] in Hp. cbn zeta in Hp.
  destruct k as [|k]; cbn [lookup list_lookup] in Hp; [|by eapply IH].
  injection Hp as <-. cbn [processed ProcessedDataPoint.runningTotal].
  destruct (runningTotals !! DataPoint.category d) as [v|] eqn:Hown.
  { rewrite totalsAfter_same by (left; by rewrite Hown).
    destruct (jsAdd_kinds (jsOr (jsGet runningTotals (DataPoint.category d)) (JNum 0))
                (DataPoint.value d)) as [?|[?|?]]; eauto. }
  destruct (decide (DataPoint.category d = "__proto__")) as [Hd|Hd].
  - do 3 right. rewrite Hd in Hown |- *. unfold jsGet.
    by rewrite totalsAfter_proto.
  - rewrite totalsAfter_same by by right.
    destruct (jsAdd_kinds (jsOr (jsGet runningTotals (DataPoint.category d)) (JNum 0))
                (DataPoint.value d)) as [?|[?|?]]; eauto.
Qed.

Lemma length_emitFrom runningTotals data :
  length (emitFrom runningTotals data) = length data.
Proof.
  revert runningTotals. induction data as [|d rest IH]; intros rt; simpl; [done|].
  by rewrite IH.
Qed.

Lemma lookup_emitFrom runningTotals data i p :
  emitFrom runningTotals data !! i = Some p →
  ∃ d, data !! i = Some d ∧ p = processed d (ProcessedDataPoint.runningTotal p).
Proof.
  revert runningTotals i. induction data as [|d rest IH]; intros rt i Hp; [done|].
  destruct i as [|i]; simpl in *.
  - injection Hp as <-. by exists d.
  - by eapply IH.
Qed.


Lemma ofCategory_cons_eq c d rest :
  DataPoint.category d = c → ofCategory c (d :: rest) = d :: ofCategory c rest.
Proof. intros Hc. unfold ofCategory. by rewrite filter_cons_True. Qed.

Lemma ofCategory_cons_ne c d rest :
  DataPoint.category d ≠ c → ofCategory c (d :: rest) = ofCategory c rest.
Proof. intros Hc. unfold ofCategory. by rewrite filter_cons_False. Qed.

(** The running totals emitted for one category are the partial sums of
    that category's values, whatever the records of the other categories
    hold and wherever they stand. *)
Lemma emitFrom_category runningTotals data c zs start :
  jsOr (jsGet runningTotals c) (JNum 0) = JNum start →
  DataPoint.value <$> ofCategory c data = JNum <$> zs →
  ProcessedDataPoint.runningTotal <$> emittedFor c (emitFrom runningTotals data)
  = JNum <$> partialSums start zs.
Proof.
  revert runningTotals zs start.
  induction data as [|d rest IH]; intros runningTotals zs start Hstart Hzs.
  - by destruct zs.
  - cbn [emitFrom]. unfold emittedFor.
    destruct (decide (DataPoint.category d = c)) as [Hc|Hc].
    + rewrite ofCategory_cons_eq in Hzs by done.
      destruct zs as [|z zs]; [done|]. injection Hzs as Hz Hzs.
      rewrite filter_cons_True by done. cbn [fmap list_fmap partialSums].
      assert (jsGet (totalsAfter runningTotals d) c = JNum (start + z)) as Htotal.
      { subst c. rewrite totalsAfter_same by by eapply storable_number.
        by rewrite Hstart, Hz. }
      subst c. cbn [processed ProcessedDataPoint.runningTotal]. rewrite Htotal.
      f_equal. apply IH; [|done]. by rewrite Htotal, jsOr_num.
    + rewrite ofCategory_cons_ne in Hzs by done.
      rewrite filter_cons_False by done.
      apply IH; [|done]. by rewrite totalsAfter_other.
Qed.

Lemma emitFrom_quarters runningTotals data c :
  ProcessedDataPoint.quarter <$> emittedFor c (emitFrom runningTotals data)
  = DataPoint.quarter <$> ofCategory c data.
Proof.
  revert runningTotals. induction data as [|d rest IH]; intros runningTotals; [done|].
  cbn [emitFrom]. unfold emittedFor, ofCategory.
  destruct (decide (DataPoint.category d = c)) as [Hc|Hc].
  - rewrite !filter_cons_True by done. cbn [fmap list_fmap]. f_equal. apply IH.
  - rewrite !filter_cons_False by done. apply IH.
Qed.

Lemma partialSums_step start zs k a b :
  Forall (λ z, (0 ≤ z)%Z) zs →
  partialSums start zs !! k = Some a →
  partialSums start zs !! S k = Some b →
  (a ≤ b)%Z.
Proof.
  intros Hzs. revert start k.
  induction Hzs as [|z zs Hz Hzs IH]; intros start k Ha Hb; [done|].
  destruct k as [|k]; simpl in *.
  - destruct Hzs as [|z' zs Hz' _]; simplify_eq/=. lia.
  - by eapply IH.
Qed.

Lemma last_partialSums start z zs :
  last (partialSums start (z :: zs)) = Some (start + sumZ (z :: zs))%Z.
Proof.
  revert start z. induction zs as [|z' zs IH]; intros start z.
  - simpl. f_equal. lia.
  - cbn [partialSums]. rewrite last_cons_cons. cbn [partialSums] in IH.
    rewrite IH. f_equal. simpl. lia.
Qed.

Lemma categorySum_cons_eq c d rest :
  DataPoint.category d = c →
  categorySum c (d :: rest)
  = (numberOf (DataPoint.value d) + categorySum c rest)%Z.
Proof. intros Hc. unfold categorySum. by rewrite ofCategory_cons_eq. Qed.

Lemma categorySum_cons_ne c d rest :
  DataPoint.category d ≠ c → categorySum c (d :: rest) = categorySum c rest.
Proof. intros Hc. unfold categorySum. by rewrite ofCategory_cons_ne. Qed.

(** By position: the running total of the record at [k] is the sum of its
    category's values up to and including [k]. *)
Lemma emitFrom_lookup_sum runningTotals data c start k p :
  jsOr (jsGet runningTotals c) (JNum 0) = JNum start →
  Forall (λ d, isNum (DataPoint.value d)) (ofCategory c data) →
  emitFrom runningTotals data !! k = Some p →
  ProcessedDataPoint.category p = c →
  ProcessedDataPoint.runningTotal p
  = JNum (start + categorySum c (take (S k) data)).
Proof.
  revert runningTotals start k.
  induction data as [|d rest IH]; intros runningTotals start k Hstart Hnum Hp Hc;
    [done|].
  cbn [emitFrom] in Hp. cbn [take].
  destruct (decide (DataPoint.category d = c)) as [Hd|Hd].
  - rewrite ofCategory_cons_eq in Hnum by done.
    rewrite categorySum_cons_eq by done.
    apply Forall_cons in Hnum as [[z Hz] Hnum].
    assert (jsGet (totalsAfter runningTotals d) c = JNum (start + z)) as Htotal.
    { rewrite <-Hd in Hstart |- *.
      rewrite totalsAfter_same by by eapply storable_number.
      by rewrite Hstart, Hz. }
    rewrite Hz. cbn [numberOf].
    destruct k as [|k]; cbn [lookup list_lookup] in Hp.
    + injection Hp as <-. cbn [processed ProcessedDataPoint.runningTotal].
      rewrite Hd, Htotal, take_0. unfold categorySum. simpl. f_equal. lia.
    + rewrite (IH (totalsAfter runningTotals d) (start + z)%Z k);
        [| by rewrite Htotal, jsOr_num | done..].
      f_equal. lia.
  - rewrite ofCategory_cons_ne in Hnum by done.
    rewrite categorySum_cons_ne by done.
    destruct k as [|k]; cbn [lookup list_lookup] in Hp.
    + injection Hp as <-. done.
    + apply (IH (totalsAfter runningTotals d)); [|done..].
      by rewrite totalsAfter_other.
Qed.

Lemma sumZ_app zs1 zs2 : sumZ (zs1 ++ zs2) = (sumZ zs1 + sumZ zs2)%Z.
Proof. induction zs1 as [|z zs1 IH]; simpl in *; [done|]. rewrite IH. lia. Qed.

Lemma categorySum_app c data1 data2 :
  categorySum c (data1 ++ data2) = (categorySum c data1 + categorySum c data2)%Z.
Proof.
  unfold categorySum, ofCategory. by rewrite filter_app, fmap_app, sumZ_app.
Qed.

Lemma categorySum_nonneg c data :
  Forall (λ d, (0 ≤ numberOf (DataPoint.value d))%Z) (ofCategory c data) →
  (0 ≤ categorySum c data)%Z.
Proof.
  unfold categorySum.
  induction 1 as [|d rest Hd _ IH]; cbn [fmap list_fmap sumZ foldr compose] in *;
    [done|].
  fold (sumZ (numberOf ∘ DataPoint.value <$> rest)). lia.
Qed.

Lemma categorySum_take_mono c data k k' :
  Forall (λ d, (0 ≤ numberOf (DataPoint.value d))%Z) (ofCategory c data) →
  (k ≤ k')%nat →
  (categorySum c (take k data) ≤ categorySum c (take k' data))%Z.
Proof.
  intros Hdata Hk.
  replace k' with (k + (k' - k))%nat by lia.
  rewrite <-take_take_drop, categorySum_app.
  assert (0 ≤ categorySum c (take (k' - k) (drop k data)))%Z; [|lia].
  apply categorySum_nonneg.
  unfold ofCategory in *. rewrite Forall_forall in Hdata |- *.
  intros d Hd. apply Hdata.
  apply list_elem_of_filter in Hd as [Hc Hd].
  apply list_elem_of_filter. split; [done|].
  apply elem_of_take in Hd as (i & Hd & _).
  rewrite lookup_drop in Hd. by eapply list_elem_of_lookup_2.
Qed.

(** ** The records of one category in the flat sequence *)

Lemma filter_concat {A} (P : A → Prop) `{!∀ x, Decision (P x)} (rows : list (list A)) :
  filter P (concat rows) = concat (filter P <$> rows).
Proof.
  induction rows as [|row rows IH]; simpl; [done|]. by rewrite filter_app, IH.
Qed.

Lemma last_concat {A} (P : A → Prop) (rows : list (list A)) x :
  Forall (λ row, ∀ y, last row = Some y → P y) rows →
  last (concat rows) = Some x → P x.
Proof.
  induction 1 as [|row rows Hrow _ IH]; simpl; [done|].
  rewrite last_app. destruct (last (concat rows)) as [y|]; intros Hx.
  - by apply IH.
  - by apply Hrow.
Qed.

Lemma flatRow_quarters values quarters j category :
  DataPoint.quarter <$> flatRow values quarters j category = quarters.
Proof.
  unfold flatRow. generalize (cell values j). intros f. revert f.
  induction quarters as [|quarter quarters IH]; intros f; simpl; [done|].
  f_equal. apply (IH (f ∘ S)).
Qed.

Lemma flatRow_category values quarters j category d :
  d ∈ flatRow values quarters j category → DataPoint.category d = category.
Proof.
  intros Hd. apply list_elem_of_lookup in Hd as [i Hd].
  unfold flatRow in Hd. rewrite list_lookup_imap in Hd.
  destruct (quarters !! i); by simplify_eq/=.
Qed.

Lemma ofCategory_flatRow values quarters j category c :
  ofCategory c (flatRow values quarters j category)
  = if decide (category = c) then flatRow values quarters j category else [].
Proof.
  pose proof (flatRow_category values quarters j category) as Hrow.
  unfold ofCategory. induction (flatRow values quarters j category) as [|d row IH].
  - by case_decide.
  - assert (DataPoint.category d = category) as Hd by (apply Hrow; by left).
    assert (∀ d', d' ∈ row → DataPoint.category d' = category) as Hrow'
      by (intros d' Hd'; apply Hrow; by right).
    specialize (IH Hrow'). case_decide as Hc.
    + rewrite filter_cons_True by congruence. by rewrite IH.
    + rewrite filter_cons_False by congruence. done.
Qed.

(** The last record of a category is one of the last quarter. *)
Lemma last_ofCategory_flatRecords quarters seriesCategories values c d :
  last (ofCategory c (flatRecords quarters seriesCategories values)) = Some d →
  last quarters = Some (DataPoint.quarter d).
Proof.
  unfold flatRecords, ofCategory. rewrite filter_concat.
  apply (last_concat (λ d, last quarters = Some (DataPoint.quarter d))).
  apply Forall_fmap, Forall_lookup. intros j row Hrow d' Hd'. simpl in Hd'.
  rewrite list_lookup_imap in Hrow.
  destruct (seriesCategories !! j) as [category|]; simplify_eq/=.
  fold (ofCategory c (flatRow values quarters j category)) in Hd'.
  rewrite ofCategory_flatRow in Hd'. case_decide; [|done].
  rewrite <-(flatRow_quarters values quarters j category) at 1.
  by rewrite fmap_last, Hd'.
Qed.

(** A category of the list has a record as soon as there is a quarter. *)
Lemma ofCategory_flatRecords_nonempty quarters seriesCategories values c :
  c ∈ seriesCategories → quarters ≠ [] →
  ofCategory c (flatRecords quarters seriesCategories values) ≠ [].
Proof.
  intros Hc Hquarters Hnil.
  apply list_elem_of_lookup in Hc as [j Hj].
  destruct quarters as [|quarter quarters]; [done|].
  pose proof (lookup_flatRecords (quarter :: quarters) seriesCategories values
                j 0 c quarter Hj eq_refl) as Hd.
  apply list_elem_of_lookup_2 in Hd.
  by apply (filter_nil_not_elem_of _ _ _ Hnil) in Hd.
Qed.

Lemma quarters_ofCategory_concat quarters c (f : nat → string → list DataPoint.t)
    (seriesCategories : list string) :
  (∀ j category,
     DataPoint.quarter <$> ofCategory c (f j category)
     = if decide (category = c) then quarters else []) →
  DataPoint.quarter <$> ofCategory c (concat (imap f seriesCategories))
  = concat ((λ category, if decide (category = c) then quarters else [])
              <$> seriesCategories).
Proof.
  revert f. induction seriesCategories as [|category rest IH]; intros f Hf; [done|].
  cbn [imap concat fmap list_fmap]. unfold ofCategory in *.
  rewrite filter_app, fmap_app, Hf. f_equal.
  apply (IH (f ∘ S)). intros j category'. apply Hf.
Qed.

Lemma concat_other_categories (quarters : list string) c
    (seriesCategories : list string) :
  c ∉ seriesCategories →
  concat ((λ category, if decide (category = c) then quarters else [])
            <$> seriesCategories) = [].
Proof.
  induction seriesCategories as [|category rest IH]; intros Hc; [done|].
  apply not_elem_of_cons in Hc as [Hne Hc]. simpl.
  rewrite decide_False by done. by apply IH.
Qed.

(** A category that is listed once has one record per quarter, in the
    order of the quarters. *)
Lemma quarters_ofCategory_flatRecords quarters seriesCategories values c :
  NoDup seriesCategories → c ∈ seriesCategories →
  DataPoint.quarter <$> ofCategory c (flatRecords quarters seriesCategories values)
  = quarters.
Proof.
  intros Hnodup Hc. unfold flatRecords.
  rewrite (quarters_ofCategory_concat quarters).
  2:{ intros j category. rewrite ofCategory_flatRow.
      case_decide; [apply flatRow_quarters | done]. }
  induction Hnodup as [|category rest Hnotin _ IH]; [by apply not_elem_of_nil in Hc|].
  simpl. case_decide as Heq.
  - subst category. rewrite concat_other_categories by done. apply app_nil_r.
  - apply elem_of_cons in Hc as [->|Hc]; [done|]. by apply IH.
Qed.

(** ** The pivot *)

Lemma foldl_push {A B} (f : A → B) (init : list B) (l : list A) :
  foldl (λ acc x, acc ++ [f x]) init l = init ++ (f <$> l).
Proof.
  revert init. induction l as [|x l IH]; intros init; simpl.
  - by rewrite app_nil_r.
  - by rewrite IH, <-app_assoc.
Qed.

Lemma transformToStackedData_fmap processedData quarters seriesCategories :
  transformToStackedData processedData quarters seriesCategories
  = stackedRecord processedData seriesCategories <$> quarters.
Proof.
  unfold transformToStackedData.
  by rewrite (foldl_push (stackedRecord processedData seriesCategories)).
Qed.

Lemma storable_jsSet_iff o key key' v :
  storable (jsSet o key v) key' ↔ storable o key'.
Proof.
  split; [|apply storable_jsSet].
  intros [Hown|Hkey]; [|by right].
  destruct (decide (key = key')) as [->|Hne]; [|left; by rewrite <-(lookup_jsSet_ne o key key' v)].
  unfold jsSet in Hown. destruct (o !! key') eqn:Hlookup; [by left|].
  case_decide as Hproto; [by rewrite Hlookup in Hown; destruct Hown|by right].
Qed.

Lemma foldl_jsSet_lookup (f : string → JsValue) (keys : list string)
    (o : gmap string JsValue) (key : string) :
  foldl (λ (o : gmap string JsValue) k, jsSet o k (f k)) o keys !! key
  = if decide (key ∈ keys ∧ storable o key) then Some (f key) else o !! key.
Proof.
  revert o. induction keys as [|k keys IH]; intros o; cbn [foldl].
  - rewrite decide_False; [done|]. intros [Hin _]. by apply not_elem_of_nil in Hin.
  - rewrite IH. destruct (decide (storable o key)) as [Hstorable|Hstorable].
    + destruct (decide (key ∈ keys)) as [Hin|Hin].
      * rewrite decide_True by (split; [done|by apply storable_jsSet]).
        rewrite decide_True; [done|]. split; [by right|done].
      * rewrite decide_False by (by intros [? _]).
        destruct (decide (k = key)) as [->|Hk].
        -- rewrite jsSet_storable, lookup_insert_eq, decide_True; [done| |done].
           split; [by left|done].
        -- rewrite lookup_jsSet_ne, decide_False; [done| |done].
           intros [[?|?]%elem_of_cons _]; congruence.
    + destruct (decide (key ∈ keys ∧ storable (jsSet o k (f k)) key)) as [[_ Hs]|_];
        [by apply storable_jsSet_iff in Hs|].
      destruct (decide (key ∈ k :: keys ∧ storable o key)) as [[_ Hs]|_]; [done|].
      destruct (decide (k = key)) as [->|Hk]; [|by rewrite lookup_jsSet_ne].
      unfold jsSet. destruct (o !! key) eqn:Hlookup.
      * exfalso. apply Hstorable. left. by rewrite Hlookup.
      * destruct (decide (key = "__proto__")) as [Hproto|Hproto]; [done|].
        exfalso. apply Hstorable. by right.
Qed.

Lemma stackedRecord_lookup processedData seriesCategories quarter category :
  category ∈ seriesCategories →
  category ≠ "__proto__" →
  stackedRecord processedData seriesCategories quarter !! category
  = Some (stackedField processedData quarter category).
Proof.
  intros Hin Hproto. unfold stackedRecord.
  rewrite (foldl_jsSet_lookup (stackedField processedData quarter)), decide_True;
    [done|]. split; [done|by right].
Qed.

(** ** The maximum *)

Section Maximum.
Variable StringToNumber : string → option Z.

Lemma d3_max_from (m : Z) (zs : list Z) :
  foldl (λ max value,
      if negb (isNullish value)
         && (jsLt StringToNumber max value
             || (bool_decide (max = JUndefined) && jsGe StringToNumber value value))
      then value else max)
    (JNum m) (JNum <$> zs)
  = JNum (foldl Z.max m zs).
Proof.
  revert m. induction zs as [|z zs IH]; intros m; simpl; [done|].
  change (jsLt StringToNumber (JNum m) (JNum z)) with (bool_decide (m < z)%Z).
  rewrite orb_false_r. case_bool_decide as Hlt.
  - rewrite IH. do 2 f_equal. lia.
  - rewrite IH. do 2 f_equal. lia.
Qed.

Lemma d3_max_numbers (z : Z) (zs : list Z) :
  d3_max StringToNumber (JNum <$> z :: zs) = JNum (foldl Z.max z zs).
Proof.
  unfold d3_max. cbn [fmap list_fmap foldl isNullish negb andb].
  change (jsLt StringToNumber JUndefined (JNum z)) with false.
  change (jsGe StringToNumber (JNum z) (JNum z)) with (bool_decide (z ≤ z)%Z).
  rewrite !bool_decide_true by (done || lia). apply d3_max_from.
Qed.

Lemma d3_max_nil : d3_max StringToNumber [] = JUndefined.
Proof. done. Qed.
End Maximum.

Lemma foldl_max_ge (m : Z) (zs : list Z) :
  (m ≤ foldl Z.max m zs)%Z ∧ ∀ z, z ∈ zs → (z ≤ foldl Z.max m zs)%Z.
Proof.
  revert m. induction zs as [|y zs IH]; intros m; simpl.
  - split; [lia|]. intros z Hz. by apply not_elem_of_nil in Hz.
  - destruct (IH (Z.max m y)) as [Hm Hzs]. split; [lia|].
    intros z [->|Hz]%elem_of_cons; [lia|]. by apply Hzs.
Qed.

Lemma foldl_max_in (m : Z) (zs : list Z) : foldl Z.max m zs ∈ m :: zs.
Proof.
  revert m. induction zs as [|y zs IH]; intros m; simpl; [by left|].
  pose proof (IH (Z.max m y)) as Hmax. apply elem_of_cons in Hmax as [Heq|Hin].
  - rewrite Heq. destruct (Z.max_spec m y) as [ [_ ->] | [_ ->] ]; [right|]; by left.
  - by do 2 right.
Qed.

Lemma fieldSum_cons category rest (d : gmap string JsValue) :
  fieldSum (category :: rest) d
  = (numberOf (jsGet d category) + fieldSum rest d)%Z.
Proof. done. Qed.

Lemma stackTotal_from seriesCategories (d : gmap string JsValue) (start : Z) :
  Forall (λ category, isNum (jsGet d category)) seriesCategories →
  foldl (λ total category, jsAdd total (jsOr (jsGet d category) (JNum 0)))
    (JNum start) seriesCategories
  = JNum (start + fieldSum seriesCategories d).
Proof.
  intros Hnum. revert start.
  induction Hnum as [|category rest [z Hz] _ IH]; intros start; cbn [foldl].
  - f_equal. unfold fieldSum. simpl. lia.
  - rewrite fieldSum_cons, Hz, jsOr_num. cbn [numberOf].
    change (jsAdd (JNum start) (JNum z)) with (JNum (start + z)).
    rewrite IH. f_equal. lia.
Qed.

Lemma stackTotal_numbers seriesCategories (d : gmap string JsValue) :
  Forall (λ category, isNum (jsGet d category)) seriesCategories →
  stackTotal seriesCategories d = JNum (fieldSum seriesCategories d).
Proof. intros Hnum. unfold stackTotal. by rewrite stackTotal_from. Qed.

(** ** Lemmas for the statements below *)

Lemma update_heap_other localeCompare StringToNumber options this
    (h : gmap nat (list string)) r :
  r ∈ dom h →
  (update localeCompare StringToNumber options this h).2 !! r = h !! r.
Proof.
  intros Hr. unfold update.
  destruct (dataViews options !! 0%nat) as [dataView|]; [|done].
  destruct (categorical dataView) as [cat|]; [|done].
  destruct (categories cat) as [cats|], (values cat) as [vals|]; try done.
  destruct (_ || _); [done|].
  destruct (cats !! 0%nat) as [category|]; [|done].
  cbn [alloc sortQuarters].
  assert (fresh (dom h) ≠ r) as Hfresh.
  { intros <-. by apply (is_fresh (dom h)). }
  destruct (buildDataArray _ _ _); cbn [snd];
    by rewrite lookup_alter_ne, lookup_insert_ne.
Qed.

Lemma compareCodeUnits_swap a b :
  (0 < compareCodeUnits a b)%Z → (compareCodeUnits b a ≤ 0)%Z.
Proof.
  unfold compareCodeUnits. rewrite (String.compare_antisym b a).
  destruct (String.compare a b); simpl; lia.
Qed.


Lemma plain_A : "A" ∉ objectPrototypeKeys.
Proof. plain_name. Qed.

Lemma plain_B : "B" ∉ objectPrototypeKeys.
Proof. plain_name. Qed.



Lemma twoMeasureValues_measures j :
  (j < length ["A"; "B"])%nat → is_Some (firstMeasure twoMeasureValues j).
Proof.
  intros Hj. destruct j as [|[|j]]; [by eexists..|]. simpl in Hj. lia.
Qed.

Lemma emitFrom_lookup_Some runningTotals data k d :
  data !! k = Some d →
  ∃ p, emitFrom runningTotals data !! k = Some p
       ∧ ProcessedDataPoint.quarter p = DataPoint.quarter d
       ∧ ProcessedDataPoint.category p = DataPoint.category d.
Proof.
  intros Hd.
  destruct (lookup_lt_is_Some_2 (emitFrom runningTotals data) k) as [p Hp].
  { rewrite length_emitFrom. by eapply lookup_lt_Some. }
  exists p. split; [done|].
  apply lookup_emitFrom in Hp as (d' & Hd' & ->). by simplify_eq/=.
Qed.

Lemma jsOr_idemp v : jsOr (jsOr v (JNum 0)) (JNum 0) = jsOr v (JNum 0).
Proof. unfold jsOr. destruct (ToBoolean v) eqn:Hv; [by rewrite Hv | done]. Qed.

Lemma buildDataArray_zeroValues quarters seriesCategories values :
  buildDataArray quarters seriesCategories (zeroValues values)
  = buildDataArray quarters seriesCategories values.
Proof.
  unfold buildDataArray. f_equal. apply mapM_ext. intros [j category].
  cbn [zeroValues grouped]. rewrite list_lookup_fmap.
  destruct (grouped values !! j) as [group|]; simpl; [|done].
  rewrite list_lookup_fmap.
  destruct (group_values group !! 0%nat) as [column|]; simpl; [|done].
  apply mapM_ext. intros [i quarter]. simpl. rewrite list_lookup_fmap.
  destruct (col_values column !! i); simpl; [|done]. by rewrite jsOr_idemp.
Qed.

Lemma update_zeroOptions localeCompare StringToNumber options this h :
  update localeCompare StringToNumber (zeroOptions options) this h
  = update localeCompare StringToNumber options this h.
Proof.
  unfold update. cbn [zeroOptions dataViews viewport].
  rewrite list_lookup_fmap.
  destruct (dataViews options !! 0%nat) as [dataView|]; simpl; [|done].
  destruct (categorical dataView) as [c|]; simpl; [|done].
  destruct (categories c) as [cats|]; [|done].
  destruct (values c) as [vals|]; simpl; [|done].
  rewrite length_fmap.
  destruct (_ || _); [done|].
  destruct (cats !! 0%nat) as [category|]; [|done].
  rewrite buildDataArray_zeroValues, <-list_fmap_compose. done.
Qed.

Lemma update_nothingToDraw localeCompare StringToNumber options this h :
  nothingToDraw options →
  update localeCompare StringToNumber options this h
  = (Normal, {| target := [] |}, h).
Proof.
  unfold nothingToDraw, update.
  destruct (dataViews options !! 0%nat) as [dataView|]; [|done].
  destruct (categorical dataView) as [c|]; [|done].
  intros [->|[->|[Hv|(v & -> & Hv)]]].
  - done.
  - by destruct (values c).
  - rewrite Hv. by destruct (categories c).
  - destruct (categories c) as [cats|]; [|done].
    rewrite Hv. simpl. by rewrite orb_true_r.
Qed.

Lemma stackTotals_numbers seriesCategories (stackedData : list (gmap string JsValue)) :
  Forall (λ d, Forall (λ category, isNum (jsGet d category)) seriesCategories)
    stackedData →
  stackTotal seriesCategories <$> stackedData
  = JNum <$> (fieldSum seriesCategories <$> stackedData).
Proof.
  induction 1 as [|d rest Hd _ IH]; cbn [fmap list_fmap]; [done|].
  rewrite stackTotal_numbers by done. f_equal. apply IH.
Qed.

Lemma basicStacked_numbers :
  Forall (λ d : gmap string JsValue,
            Forall (λ category, isNum (jsGet d category)) ["A"; "B"])
    basicStacked.
Proof. repeat constructor; by eexists. Qed.

Lemma basicStacked_exact :
  Forall (λ d : gmap string JsValue,
            exactSums (numberOf ∘ jsGet d <$> ["A"; "B"]))
    basicStacked.
Proof.
  unfold basicStacked.
  apply Forall_cons_2; [|apply Forall_cons_2; [|apply Forall_nil_2]].
  - replace (numberOf ∘ jsGet _ <$> ["A"; "B"]) with [10; 3]%Z by reflexivity.
    exact_sums.
  - replace (numberOf ∘ jsGet _ <$> ["A"; "B"]) with [15; 10]%Z by reflexivity.
    exact_sums.
Qed.

(** * The properties of the specification *)

(** ** Sorting the periods *)

(** C4, counterexample.  [sortQuarters] hands back the reference it was
    given, and the array behind that reference has changed: called on
    ["2023Q2", "2023Q1"], the argument holds ["2023Q1", "2023Q2"]
    afterwards. *)
Lemma sortQuarters_changes_its_argument :
  (sortQuarters compareCodeUnits 0%nat unsortedHeap).1 = 0%nat
  ∧ unsortedHeap !! 0%nat = Some ["2023Q2"; "2023Q1"]
  ∧ (sortQuarters compareCodeUnits 0%nat unsortedHeap).2 !! 0%nat
    = Some ["2023Q1"; "2023Q2"]
  ∧ (sortQuarters compareCodeUnits 0%nat unsortedHeap).2 !! 0%nat
    ≠ unsortedHeap !! 0%nat.
Proof. by vm_compute. Qed.

(** C4, amended.  [sortQuarters] sorts the array it is given where it
    is and returns the same reference: afterwards that array holds a
    sorted permutation of its former contents, and every other array is
    as before.  [update] calls it on a fresh copy of the period column, so
    no array that existed before the update is changed. *)
Theorem sortQuarters_in_place (localeCompare : string → string → Z)
    (StringToNumber : string → option Z)
    (quarters : nat) (h : gmap nat (list string)) (labels : list string) :
  (∀ a b, (0 < localeCompare a b)%Z → (localeCompare b a ≤ 0)%Z) →
  h !! quarters = Some labels →
  (∃ sorted,
      sortQuarters localeCompare quarters h = (quarters, <[quarters := sorted]> h)
      ∧ sorted ≡ₚ labels
      ∧ Sorted (inOrder localeCompare) sorted)
  ∧ (∀ r, r ≠ quarters →
       (sortQuarters localeCompare quarters h).2 !! r = h !! r)
  ∧ (∀ options this (h0 : gmap nat (list string)) r, r ∈ dom h0 →
       (update localeCompare StringToNumber options this h0).2 !! r = h0 !! r).
Proof.
  intros Hswap Hlabels. split; [|split].
  - exists (arraySort localeCompare labels). split; [|split].
    + unfold sortQuarters. f_equal. apply map_eq. intros r.
      destruct (decide (quarters = r)) as [<-|Hr].
      * by rewrite lookup_alter_eq, lookup_insert_eq, Hlabels.
      * by rewrite lookup_alter_ne, lookup_insert_ne.
    + apply arraySort_Permutation.
    + by apply arraySort_Sorted.
  - intros r Hr. unfold sortQuarters. cbn [snd]. by rewrite lookup_alter_ne.
  - intros options this h0 r. apply update_heap_other.
Qed.

Lemma sortQuarters_in_place_witness :
  (∀ a b, (0 < compareCodeUnits a b)%Z → (compareCodeUnits b a ≤ 0)%Z)
  ∧ unsortedHeap !! 0%nat = Some ["2023Q2"; "2023Q1"]
  ∧ ((∃ sorted,
        sortQuarters compareCodeUnits 0%nat unsortedHeap
        = (0%nat, <[0%nat := sorted]> unsortedHeap)
        ∧ sorted ≡ₚ ["2023Q2"; "2023Q1"]
        ∧ Sorted (inOrder compareCodeUnits) sorted)
     ∧ (∀ r, r ≠ 0%nat →
          (sortQuarters compareCodeUnits 0%nat unsortedHeap).2 !! r
          = unsortedHeap !! r)
     ∧ (∀ options this (h0 : gmap nat (list string)) r, r ∈ dom h0 →
          (update compareCodeUnits noStringNumbers options this h0).2 !! r
          = h0 !! r)).
Proof.
  split; [exact compareCodeUnits_swap|]. split; [reflexivity|].
  apply (sortQuarters_in_place compareCodeUnits noStringNumbers 0%nat
           unsortedHeap ["2023Q2"; "2023Q1"] compareCodeUnits_swap).
  reflexivity.
Defined.

(** ** Flat records *)

(** C6. For every category index j and period index i, [buildDataArray]
    produces exactly one DataPoint, at position j * (number of periods)
    + i: the records come category by category and, within a category,
    period by period.  Its value is read in the first value series of the
    j-th group at index i; the other measures of a group play no part. *)
Theorem buildDataArray_layout (quarters seriesCategories : list string)
    (values : DataViewValueColumns) :
  (∀ j, (j < length seriesCategories)%nat → is_Some (firstMeasure values j)) →
  ∃ data,
    buildDataArray quarters seriesCategories values = Some data
    ∧ length data = (length seriesCategories * length quarters)%nat
    ∧ (∀ j i category quarter,
         seriesCategories !! j = Some category →
         quarters !! i = Some quarter →
         data !! (j * length quarters + i)%nat
         = Some {| DataPoint.quarter := quarter;
                   DataPoint.category := category;
                   DataPoint.value := jsOr (cell values j i) (JNum 0) |})
    ∧ (∀ values',
         (∀ j, firstMeasure values' j = firstMeasure values j) →
         buildDataArray quarters seriesCategories values' = Some data).
Proof.
  intros Hwell. exists (flatRecords quarters seriesCategories values).
  split; [by apply buildDataArray_Some|]. split; [apply length_flatRecords|].
  split; [intros j i category quarter; apply lookup_flatRecords|].
  intros values' Hsame. rewrite buildDataArray_Some.
  - f_equal. unfold flatRecords. f_equal. apply imap_ext. intros j category _.
    unfold flatRow. apply imap_ext. intros i quarter _.
    unfold cell. by rewrite Hsame.
  - intros j Hj. rewrite Hsame. by apply Hwell.
Qed.

Lemma buildDataArray_layout_witness :
  (∀ j, (j < length ["A"; "B"])%nat → is_Some (firstMeasure twoMeasureValues j))
  ∧ ∃ data,
      buildDataArray ["2023Q1"; "2023Q2"] ["A"; "B"] twoMeasureValues = Some data
      ∧ length data = (length ["A"; "B"] * length ["2023Q1"; "2023Q2"])%nat
      ∧ (∀ j i category quarter,
           ["A"; "B"] !! j = Some category →
           ["2023Q1"; "2023Q2"] !! i = Some quarter →
           data !! (j * length ["2023Q1"; "2023Q2"] + i)%nat
           = Some {| DataPoint.quarter := quarter;
                     DataPoint.category := category;
                     DataPoint.value :=
                       jsOr (cell twoMeasureValues j i) (JNum 0) |})
      ∧ (∀ values',
           (∀ j, firstMeasure values' j = firstMeasure twoMeasureValues j) →
           buildDataArray ["2023Q1"; "2023Q2"] ["A"; "B"] values' = Some data).
Proof.
  split; [exact twoMeasureValues_measures|].
  exact (buildDataArray_layout ["2023Q1"; "2023Q2"] ["A"; "B"] twoMeasureValues
           twoMeasureValues_measures).
Defined.

(** ** Running totals *)

(** C5, the code on a category named "constructor".  The guard
    [if (!runningTotals[key])] tests whether the read is falsy, not
    whether the accumulator exists.  [runningTotals] is a plain object:
    its property "constructor" reads as the function [Object] that every
    object inherits, which is truthy.  The accumulator is therefore never
    set to 0, [+=] glues the value to the text of the function, and a
    first value of 0 is emitted as a text, not as 0.  The same guard sets
    an accumulator that has become NaN back to 0: after the values 4 and
    NaN the value 3 is emitted as 3, where the accumulator after the
    addition would be NaN. *)
Lemma accumulator_guard_misfires :
  ProcessedDataPoint.runningTotal <$> computeRunningTotals constructorData
  = [JStr "function Object() { [native code] }0";
     JStr "function Object() { [native code] }04"]
  ∧ computeRunningTotals constructorData
    ≠ runningTotalsSpec (λ _, JNum 0) constructorData
  ∧ ProcessedDataPoint.runningTotal <$> computeRunningTotals nanData
    = [JNum 4; JNaN; JNum 3]
  ∧ ProcessedDataPoint.runningTotal <$> runningTotalsSpec (λ _, JNum 0) nanData
    = [JNum 4; JNaN; JNaN].
Proof.
  split; [reflexivity|]. split; [|split; reflexivity].
  vm_compute. intros Heq. discriminate Heq.
Qed.



(** C10. [computeRunningTotals] returns as many records as it is given,
    and the record at each index has the quarter, category and value of
    the input record at that index: only [runningTotal] is added. *)
Theorem computeRunningTotals_frame (data : list DataPoint.t) :
  length (computeRunningTotals data) = length data
  ∧ toDataPoint <$> computeRunningTotals data = data.
Proof.
  rewrite computeRunningTotals_emitFrom. split; [apply length_emitFrom|].
  generalize (∅ : gmap string JsValue).
  induction data as [|d rest IH]; intros runningTotals; simpl; [done|].
  rewrite IH. by destruct d.
Qed.

(** C2, the code on a series named "constructor" with the values 10 and
    5.  The accumulator starts from the inherited function [Object], so
    the running totals of the category are texts: they are not numbers
    that never decrease, and the one of the last period is not the sum
    15. *)
Lemma inherited_name_totals_are_texts :
  ∃ data,
    buildDataArray ["2023Q1"; "2023Q2"] ["constructor"] constructorValues
    = Some data
    ∧ DataPoint.value <$> ofCategory "constructor" data = JNum <$> [10; 5]%Z
    ∧ ProcessedDataPoint.runningTotal
        <$> emittedFor "constructor" (computeRunningTotals data)
      = [JStr "function Object() { [native code] }10";
         JStr "function Object() { [native code] }105"]
    ∧ last (ProcessedDataPoint.runningTotal
              <$> emittedFor "constructor" (computeRunningTotals data))
      ≠ Some (JNum (sumZ [10; 5]%Z)).
Proof.
  eexists. split; [reflexivity|]. split; [reflexivity|]. split; [reflexivity|].
  vm_compute. intros Heq. discriminate Heq.
Qed.

(** X20. For every category whose name no plain object inherits, over the
    flat records of [buildDataArray] (category by category, periods in the
    order of the period list: one record per period for a category that
    is listed once), the running totals emitted for that category, taken
    in order, never decrease when all the values of the category are
    numbers >= 0, and the one emitted last, which belongs to the last
    period, is the sum of all the values of the category, as long as the
    sums stay among the integers a double holds exactly. *)
Theorem running_totals_monotone (quarters seriesCategories : list string)
    (values : DataViewValueColumns) (data : list DataPoint.t)
    (c : string) (zs : list Z) :
  buildDataArray quarters seriesCategories values = Some data →
  DataPoint.value <$> ofCategory c data = JNum <$> zs →
  c ∉ objectPrototypeKeys →
  (NoDup seriesCategories → c ∈ seriesCategories →
   ProcessedDataPoint.quarter <$> emittedFor c (computeRunningTotals data)
   = quarters)
  ∧ (Forall (λ z, (0 ≤ z)%Z) zs →
     ∀ k p p',
       emittedFor c (computeRunningTotals data) !! k = Some p →
       emittedFor c (computeRunningTotals data) !! S k = Some p' →
       ∃ a b,
         ProcessedDataPoint.runningTotal p = JNum a
         ∧ ProcessedDataPoint.runningTotal p' = JNum b
         ∧ (a ≤ b)%Z)
  ∧ (c ∈ seriesCategories → quarters ≠ [] → exactSums zs →
     ∃ p,
       last (emittedFor c (computeRunningTotals data)) = Some p
       ∧ last quarters = Some (ProcessedDataPoint.quarter p)
       ∧ ProcessedDataPoint.runningTotal p = JNum (sumZ zs)).
Proof.
  intros Hdata Hzs Hplain. rewrite computeRunningTotals_emitFrom.
  pose proof (emitFrom_category ∅ data c zs 0%Z (empty_accumulator c Hplain) Hzs)
    as Htotals.
  pose proof (emitFrom_quarters ∅ data c) as Hquarters.
  set (emitted := emittedFor c (emitFrom ∅ data)) in *.
  split; [|split].
  - intros Hnodup Hc. apply buildDataArray_inv in Hdata. subst data.
    rewrite Hquarters. by apply quarters_ofCategory_flatRecords.
  - intros Hpos k p p' Hp Hp'.
    assert (∀ i q, emitted !! i = Some q →
              ∃ x, partialSums 0 zs !! i = Some x
                   ∧ ProcessedDataPoint.runningTotal q = JNum x) as Hat.
    { intros i q Hq.
      assert ((ProcessedDataPoint.runningTotal <$> emitted) !! i
              = Some (ProcessedDataPoint.runningTotal q)) as Hrt
        by (by rewrite list_lookup_fmap, Hq).
      rewrite Htotals, list_lookup_fmap in Hrt.
      destruct (partialSums 0 zs !! i) as [x|]; simplify_eq/=. by exists x. }
    destruct (Hat k p Hp) as (a & Ha & ->), (Hat (S k) p' Hp') as (b & Hb & ->).
    exists a, b. split; [done|]. split; [done|].
    by apply (partialSums_step 0 zs k).
  - intros Hc Hne _. apply buildDataArray_inv in Hdata. subst data.
    pose proof (ofCategory_flatRecords_nonempty quarters seriesCategories values c
                  Hc Hne) as Hsome.
    destruct zs as [|z zs].
    { destruct (ofCategory c _); [done|discriminate]. }
    assert (last (ProcessedDataPoint.runningTotal <$> emitted)
            = Some (JNum (sumZ (z :: zs)))) as Hlast.
    { by rewrite Htotals, fmap_last, last_partialSums, Z.add_0_l. }
    rewrite fmap_last in Hlast.
    destruct (last emitted) as [p|] eqn:Hp; [|done].
    injection Hlast as Hlast. exists p. split; [done|]. split; [|done].
    assert (last (ProcessedDataPoint.quarter <$> emitted)
            = Some (ProcessedDataPoint.quarter p)) as Hq
      by (by rewrite fmap_last, Hp).
    rewrite Hquarters, fmap_last in Hq.
    destruct (last (ofCategory c _)) as [d|] eqn:Hd; [|done].
    injection Hq as <-. by eapply last_ofCategory_flatRecords.
Qed.

Lemma running_totals_monotone_witness :
  buildDataArray ["2023Q1"; "2023Q2"] ["A"; "B"] basicValues = Some basicData
  ∧ DataPoint.value <$> ofCategory "A" basicData = JNum <$> [10; 5]%Z
  ∧ ("A" ∉ objectPrototypeKeys)
  ∧ Forall (λ z, (0 ≤ z)%Z) [10; 5]%Z
  ∧ NoDup ["A"; "B"]
  ∧ "A" ∈ ["A"; "B"]
  ∧ ["2023Q1"; "2023Q2"] ≠ []
  ∧ exactSums [10; 5]%Z
  ∧ ProcessedDataPoint.quarter <$> emittedFor "A" (computeRunningTotals basicData)
    = ["2023Q1"; "2023Q2"]
  ∧ (∀ k p p',
       emittedFor "A" (computeRunningTotals basicData) !! k = Some p →
       emittedFor "A" (computeRunningTotals basicData) !! S k = Some p' →
       ∃ a b,
         ProcessedDataPoint.runningTotal p = JNum a
         ∧ ProcessedDataPoint.runningTotal p' = JNum b
         ∧ (a ≤ b)%Z)
  ∧ ∃ p,
      last (emittedFor "A" (computeRunningTotals basicData)) = Some p
      ∧ last ["2023Q1"; "2023Q2"] = Some (ProcessedDataPoint.quarter p)
      ∧ ProcessedDataPoint.runningTotal p = JNum (sumZ [10; 5]%Z).
Proof.
  split; [reflexivity|]. split; [reflexivity|]. split; [exact plain_A|].
  split; [repeat constructor; discriminate|].
  assert (NoDup ["A"; "B"]) as Hnodup.
  { apply NoDup_cons. split; [|apply NoDup_singleton].
    intros Hin. apply list_elem_of_singleton in Hin. discriminate. }
  split; [exact Hnodup|]. split; [left|]. split; [discriminate|].
  assert (exactSums [10; 5]%Z) as Hexact by exact_sums.
  split; [exact Hexact|].
  pose proof (running_totals_monotone ["2023Q1"; "2023Q2"] ["A"; "B"] basicValues
                basicData "A" [10; 5]%Z eq_refl eq_refl plain_A)
    as (Hquarters & Hmono & Hlast).
  split; [|split].
  - apply Hquarters; [exact Hnodup | left].
  - apply Hmono. repeat constructor; discriminate.
  - apply Hlast; [left | discriminate | exact Hexact].
Defined.

(** ** The pivot *)

(** C3, the code on a series named "__proto__".  The assignment
    [dataPoint["__proto__"] = ...] runs the setter every plain object
    inherits, which stores nothing: the record of the period has no field
    for the category, whether a record matches (the pipeline's own
    running total for that name is [Object.prototype]) or none does, and a
    read of it gives [Object.prototype], not a number. *)
Lemma proto_field_is_not_stored :
  ∃ data,
    buildDataArray ["2023Q1"] ["__proto__"] protoValues = Some data
    ∧ ProcessedDataPoint.runningTotal <$> computeRunningTotals data
      = [JObjectPrototype]
    ∧ transformToStackedData (computeRunningTotals data) ["2023Q1"] ["__proto__"]
      = [ {[ "quarter" := JStr "2023Q1" ]} ]
    ∧ transformToStackedData [] ["2023Q1"] ["__proto__"]
      = [ {[ "quarter" := JStr "2023Q1" ]} ]
    ∧ ({[ "quarter" := JStr "2023Q1" ]} : gmap string JsValue) !! "__proto__"
      = None
    ∧ jsGet {[ "quarter" := JStr "2023Q1" ]} "__proto__" = JObjectPrototype.
Proof. eexists. repeat split; reflexivity. Qed.

(** X21. For every period of the sorted period list and every category
    of the category list but "__proto__", the record built by the pivot
    has a field for that category: the running total of the (first) record
    with exactly that period and category when there is one, and 0 when
    there is none; a number whenever the running totals are numbers. *)
Theorem pivot_completeness (processedData : list ProcessedDataPoint.t)
    (quarters seriesCategories : list string) (i : nat)
    (quarter category : string) :
  quarters !! i = Some quarter →
  category ∈ seriesCategories →
  category ≠ "__proto__" →
  ∃ record field,
    transformToStackedData processedData quarters seriesCategories !! i
      = Some record
    ∧ record !! category = Some field
    ∧ ((∀ p, p ∈ processedData → ¬ matches quarter category p) →
       field = JNum 0)
    ∧ (∀ p, p ∈ processedData → matches quarter category p →
       ∃ k first,
         processedData !! k = Some first
         ∧ matches quarter category first
         ∧ (∀ k' p', processedData !! k' = Some p' → (k' < k)%nat →
              ¬ matches quarter category p')
         ∧ field = ProcessedDataPoint.runningTotal first)
    ∧ (Forall (λ p, isNum (ProcessedDataPoint.runningTotal p)) processedData →
       isNum field).
Proof.
  intros Hi Hin Hproto.
  exists (stackedRecord processedData seriesCategories quarter),
    (stackedField processedData quarter category).
  split; [|split; [|split; [|split]]].
  - by rewrite transformToStackedData_fmap, list_lookup_fmap, Hi.
  - by apply stackedRecord_lookup.
  - intros Hnone. unfold stackedField, findPoint.
    destruct (list_find _ _) as [[k p]|] eqn:Hfind; [|done].
    apply list_find_Some in Hfind as (Hk & Hp & _).
    destruct (Hnone p); [by eapply list_elem_of_lookup_2 | done].
  - intros p Hp Hmatch. unfold stackedField, findPoint.
    destruct (list_find _ _) as [[k first]|] eqn:Hfind; simpl.
    + apply list_find_Some in Hfind as (Hk & Hfirst & Hbefore).
      by exists k, first.
    + apply list_find_None in Hfind. rewrite Forall_forall in Hfind.
      by destruct (Hfind p Hp).
  - intros Hnum. unfold stackedField, findPoint.
    destruct (list_find _ _) as [[k p]|] eqn:Hfind; simpl; [|by exists 0%Z].
    apply list_find_Some in Hfind as (Hk & _ & _).
    rewrite Forall_forall in Hnum. apply Hnum. by eapply list_elem_of_lookup_2.
Qed.

Lemma pivot_completeness_witness :
  ["2023Q1"; "2023Q2"] !! 1%nat = Some "2023Q2"
  ∧ "B" ∈ ["A"; "B"]
  ∧ "B" ≠ "__proto__"
  ∧ ∃ record field,
      transformToStackedData basicProcessed ["2023Q1"; "2023Q2"] ["A"; "B"]
        !! 1%nat = Some record
      ∧ record !! "B" = Some field
      ∧ ((∀ p, p ∈ basicProcessed → ¬ matches "2023Q2" "B" p) → field = JNum 0)
      ∧ (∀ p, p ∈ basicProcessed → matches "2023Q2" "B" p →
         ∃ k first,
           basicProcessed !! k = Some first
           ∧ matches "2023Q2" "B" first
           ∧ (∀ k' p', basicProcessed !! k' = Some p' → (k' < k)%nat →
                ¬ matches "2023Q2" "B" p')
           ∧ field = ProcessedDataPoint.runningTotal first)
      ∧ (Forall (λ p, isNum (ProcessedDataPoint.runningTotal p)) basicProcessed →
         isNum field).
Proof.
  split; [reflexivity|]. split; [right; left|]. split; [discriminate|].
  apply (pivot_completeness basicProcessed ["2023Q1"; "2023Q2"] ["A"; "B"]
           1%nat "2023Q2" "B"); [reflexivity | right; left | discriminate].
Defined.

(** C9, counterexample.  With the label "2023Q1" twice and A = [5, -3],
    the running totals of the two matching records are 5 and 2.  Both
    stacked records hold 5 for A, the total of the first match, and that
    is not the smallest running total among the duplicates. *)
Lemma first_match_not_smallest :
  ∃ data,
    buildDataArray repeatedQuarters ["A"] decreasingValues = Some data
    ∧ computeRunningTotals data
      = [processed (point "2023Q1" "A" 5) (JNum 5);
         processed (point "2023Q1" "A" (-3)) (JNum 2)]
    ∧ transformToStackedData (computeRunningTotals data) repeatedQuarters ["A"]
      = [ {[ "quarter" := JStr "2023Q1"; "A" := JNum 5 ]};
          {[ "quarter" := JStr "2023Q1"; "A" := JNum 5 ]} ]
    ∧ (2 < 5)%Z.
Proof. eexists. split; [reflexivity|]. split; [|split]; by vm_compute. Qed.

(** C9, amended.  [transformToStackedData] emits one record per element
    of the period list, so a repeated label yields records with the same
    key; in each of them the field of a category whose name no plain
    object inherits holds the running total of the first matching
    ProcessedDataPoint in sequence order, which is the smallest running
    total among the duplicates when the values of the category are
    numbers >= 0. *)
Theorem stacked_duplicates (quarters seriesCategories : list string)
    (values : DataViewValueColumns) (data : list DataPoint.t)
    (i : nat) (quarter category : string) :
  buildDataArray quarters seriesCategories values = Some data →
  quarters !! i = Some quarter →
  category ∈ seriesCategories →
  category ∉ objectPrototypeKeys →
  let processedData := computeRunningTotals data in
  let stackedData := transformToStackedData processedData quarters seriesCategories in
  length stackedData = length quarters
  ∧ (∀ i', quarters !! i' = Some quarter → stackedData !! i' = stackedData !! i)
  ∧ ∃ record k first,
      stackedData !! i = Some record
      ∧ processedData !! k = Some first
      ∧ matches quarter category first
      ∧ (∀ k' p', processedData !! k' = Some p' → (k' < k)%nat →
           ¬ matches quarter category p')
      ∧ record !! category = Some (ProcessedDataPoint.runningTotal first)
      ∧ (Forall (λ d, ∃ z, DataPoint.value d = JNum z ∧ (0 ≤ z)%Z)
           (ofCategory category data) →
         ∀ k' p', processedData !! k' = Some p' → matches quarter category p' →
           ∃ a b,
             ProcessedDataPoint.runningTotal first = JNum a
             ∧ ProcessedDataPoint.runningTotal p' = JNum b
             ∧ (a ≤ b)%Z).
Proof.
  intros Hdata Hi Hin Hplain processedData stackedData.
  assert (category ≠ "__proto__") as Hproto.
  { intros ->. apply Hplain, proto_inherited. }
  assert (∀ i', quarters !! i' = Some quarter →
            stackedData !! i'
            = Some (stackedRecord processedData seriesCategories quarter)) as Hrecord.
  { intros i' Hi'. unfold stackedData.
    by rewrite transformToStackedData_fmap, list_lookup_fmap, Hi'. }
  split; [|split].
  - unfold stackedData. by rewrite transformToStackedData_fmap, length_fmap.
  - intros i' Hi'. by rewrite !Hrecord.
  - apply buildDataArray_inv in Hdata.
    apply list_elem_of_lookup in Hin as [j Hj].
    pose proof (lookup_flatRecords quarters seriesCategories values j i
                  category quarter Hj Hi) as Hd.
    rewrite <-Hdata in Hd.
    destruct (emitFrom_lookup_Some ∅ _ _ _ Hd) as (p & Hp & Hpq & Hpc).
    rewrite <-computeRunningTotals_emitFrom in Hp. fold processedData in Hp.
    assert (matches quarter category p) as Hmatch by done.
    destruct (list_find (matches quarter category) processedData)
      as [[k first]|] eqn:Hfind.
    2:{ apply list_find_None in Hfind. rewrite Forall_forall in Hfind.
        destruct (Hfind p); [by eapply list_elem_of_lookup_2 | done]. }
    apply list_find_Some in Hfind as Hspec. destruct Hspec as (Hk & Hfirst & Hbefore).
    exists (stackedRecord processedData seriesCategories quarter), k, first.
    split; [by apply Hrecord|]. split; [done|]. split; [done|]. split; [done|].
    split.
    + rewrite stackedRecord_lookup by (done || by eapply list_elem_of_lookup_2).
      unfold stackedField, findPoint. by rewrite Hfind.
    + intros Hpos k' p' Hk' Hp'.
      assert (k ≤ k')%nat as Hle.
      { destruct (decide (k ≤ k')%nat); [done|].
        destruct (Hbefore k' p' Hk'); [lia|done]. }
      assert (Forall (λ d, isNum (DataPoint.value d)) (ofCategory category data))
        as Hnum.
      { eapply Forall_impl; [exact Hpos|]. intros d (z & Hz & _). by exists z. }
      assert (Forall (λ d, (0 ≤ numberOf (DataPoint.value d))%Z)
                (ofCategory category data)) as Hnonneg.
      { eapply Forall_impl; [exact Hpos|]. intros d (z & -> & Hz). done. }
      unfold processedData in Hk, Hk'. rewrite computeRunningTotals_emitFrom in Hk, Hk'.
      destruct Hfirst as [_ Hfc], Hp' as [_ Hpc'].
      eexists _, _. split; [|split].
      * by apply (emitFrom_lookup_sum ∅ data category 0%Z k first
                    (empty_accumulator category Hplain)).
      * by apply (emitFrom_lookup_sum ∅ data category 0%Z k' p'
                    (empty_accumulator category Hplain)).
      * assert (categorySum category (take (S k) data)
                ≤ categorySum category (take (S k') data))%Z; [|lia].
        apply categorySum_take_mono; [done|lia].
Qed.

Lemma stacked_duplicates_witness :
  buildDataArray repeatedQuarters ["A"] repeatedValues = Some repeatedData
  ∧ repeatedQuarters !! 1%nat = Some "2023Q1"
  ∧ "A" ∈ ["A"]
  ∧ ("A" ∉ objectPrototypeKeys)
  ∧ (let processedData := computeRunningTotals repeatedData in
     let stackedData :=
       transformToStackedData processedData repeatedQuarters ["A"] in
     length stackedData = length repeatedQuarters
     ∧ (∀ i', repeatedQuarters !! i' = Some "2023Q1" →
          stackedData !! i' = stackedData !! 1%nat)
     ∧ ∃ record k first,
         stackedData !! 1%nat = Some record
         ∧ processedData !! k = Some first
         ∧ matches "2023Q1" "A" first
         ∧ (∀ k' p', processedData !! k' = Some p' → (k' < k)%nat →
              ¬ matches "2023Q1" "A" p')
         ∧ record !! "A" = Some (ProcessedDataPoint.runningTotal first)
         ∧ (Forall (λ d, ∃ z, DataPoint.value d = JNum z ∧ (0 ≤ z)%Z)
              (ofCategory "A" repeatedData) →
            ∀ k' p', processedData !! k' = Some p' → matches "2023Q1" "A" p' →
              ∃ a b,
                ProcessedDataPoint.runningTotal first = JNum a
                ∧ ProcessedDataPoint.runningTotal p' = JNum b
                ∧ (a ≤ b)%Z)).
Proof.
  split; [reflexivity|]. split; [reflexivity|]. split; [left|].
  split; [exact plain_A|].
  apply (stacked_duplicates repeatedQuarters ["A"] repeatedValues repeatedData
           1%nat "2023Q1" "A"); [reflexivity | reflexivity | left | exact plain_A].
Defined.

(** ** The vertical domain *)

(** C8. The upper bound of the vertical scale's domain is the maximum,
    over the stacked records, of the sum over the categories of the
    record's category fields; when that maximum is 0, or when there is no
    record, the domain is [0, 0] and not undefined.  The fields are
    numbers, and in each record their sums, taken in the order of the
    categories, stay among the integers a double holds exactly. *)
Theorem vertical_domain (StringToNumber : string → option Z)
    (stackedData : list (gmap string JsValue)) (seriesCategories : list string) :
  Forall (λ d, Forall (λ category, isNum (jsGet d category)) seriesCategories)
    stackedData →
  Forall (λ d, exactSums (numberOf ∘ jsGet d <$> seriesCategories)) stackedData →
  (stackedData = [] →
   yScaleDomain StringToNumber stackedData seriesCategories = (JNum 0, JNum 0))
  ∧ (∀ m,
       m ∈ fieldSum seriesCategories <$> stackedData →
       (∀ total, total ∈ fieldSum seriesCategories <$> stackedData →
          (total ≤ m)%Z) →
       maxY StringToNumber stackedData seriesCategories = JNum m
       ∧ yScaleDomain StringToNumber stackedData seriesCategories
         = (JNum 0, JNum m)).
Proof.
  intros Hnum _. split.
  - by intros ->.
  - intros m Hm Hmax.
    assert (maxY StringToNumber stackedData seriesCategories = JNum m) as HmaxY.
    { unfold maxY. rewrite (stackTotals_numbers _ _ Hnum).
      destruct (fieldSum seriesCategories <$> stackedData) as [|z zs].
      { by apply not_elem_of_nil in Hm. }
      rewrite d3_max_numbers, jsOr_num. f_equal.
      pose proof (foldl_max_in z zs) as Hin.
      pose proof (foldl_max_ge z zs) as [Hz Hzs].
      specialize (Hmax _ Hin).
      apply elem_of_cons in Hm as [->|Hm]; [lia|]. specialize (Hzs m Hm). lia. }
    split; [done|]. unfold yScaleDomain. by rewrite HmaxY.
Qed.

Lemma vertical_domain_witness :
  Forall (λ d : gmap string JsValue,
            Forall (λ category, isNum (jsGet d category)) ["A"; "B"])
    basicStacked
  ∧ Forall (λ d : gmap string JsValue,
              exactSums (numberOf ∘ jsGet d <$> ["A"; "B"]))
      basicStacked
  ∧ 25%Z ∈ fieldSum ["A"; "B"] <$> basicStacked
  ∧ (∀ total, total ∈ fieldSum ["A"; "B"] <$> basicStacked → (total ≤ 25)%Z)
  ∧ maxY noStringNumbers basicStacked ["A"; "B"] = JNum 25
  ∧ yScaleDomain noStringNumbers basicStacked ["A"; "B"] = (JNum 0, JNum 25).
Proof.
  assert (25%Z ∈ fieldSum ["A"; "B"] <$> basicStacked) as Hin by (right; left).
  assert (∀ total, total ∈ fieldSum ["A"; "B"] <$> basicStacked → (total ≤ 25)%Z)
    as Hmax.
  { intros total Htotal. vm_compute in Htotal.
    repeat (apply elem_of_cons in Htotal as [->|Htotal]; [done|]).
    by apply not_elem_of_nil in Htotal. }
  split; [exact basicStacked_numbers|]. split; [exact basicStacked_exact|].
  split; [exact Hin|]. split; [exact Hmax|].
  destruct (vertical_domain noStringNumbers basicStacked ["A"; "B"]
              basicStacked_numbers basicStacked_exact) as [_ Hdomain].
  exact (Hdomain 25%Z Hin Hmax).
Defined.

(** ** Degrading to a no-op, and the default of a cell *)

(** C7, the code on a cell that holds the text "n/a", with the periods
    "2023Q1", "2023Q2" and the series A = [4, "n/a"].  The cell is truthy,
    so [|| 0] keeps it: the text is the value of the flat record, although
    [DataPoint.value] is declared a number, and the running total of the
    category becomes the text "4n/a" instead of 4. *)
Lemma text_cell_is_not_zeroed :
  ∃ data,
    buildDataArray ["2023Q1"; "2023Q2"] ["A"] textValues = Some data
    ∧ DataPoint.value <$> data = [JNum 4; JStr "n/a"]
    ∧ ProcessedDataPoint.runningTotal <$> computeRunningTotals data
      = [JNum 4; JStr "4n/a"].
Proof. eexists. split; [reflexivity|]. split; by vm_compute. Qed.

(** X22. When the update receives no data view, no categorical data, no
    or an empty category list, or no or an empty value list, it returns
    after clearing the surface, with nothing drawn and no error.  What
    [|| 0] does to a cell: one that is missing or falsy (undefined, null,
    NaN, 0, the empty string, false) is 0 in the flat record, any other is
    the value of the record as it stands; and nothing [update] produces
    changes when every cell is replaced by [cell || 0] beforehand. *)
Theorem degrade_to_noop (localeCompare : string → string → Z)
    (StringToNumber : string → option Z) :
  (∀ options this h,
     nothingToDraw options →
     update localeCompare StringToNumber options this h
     = (Normal, {| target := [] |}, h))
  ∧ (∀ quarters seriesCategories values data j i category quarter,
       buildDataArray quarters seriesCategories values = Some data →
       seriesCategories !! j = Some category →
       quarters !! i = Some quarter →
       ∃ d,
         data !! (j * length quarters + i)%nat = Some d
         ∧ (ToBoolean (cell values j i) = false → DataPoint.value d = JNum 0)
         ∧ (ToBoolean (cell values j i) = true →
            DataPoint.value d = cell values j i))
  ∧ (∀ options this h,
       update localeCompare StringToNumber (zeroOptions options) this h
       = update localeCompare StringToNumber options this h).
Proof.
  split; [|split].
  - intros options this h. apply update_nothingToDraw.
  - intros quarters seriesCategories values data j i category quarter Hdata Hj Hi.
    apply buildDataArray_inv in Hdata. subst data.
    eexists. split; [by apply lookup_flatRecords|]. simpl. unfold jsOr.
    split; by intros ->.
  - intros options this h. apply update_zeroOptions.
Qed.

Lemma degrade_to_noop_witness :
  nothingToDraw emptyOptions
  ∧ update compareCodeUnits noStringNumbers emptyOptions staleVisual unsortedHeap
    = (Normal, {| target := [] |}, unsortedHeap)
  ∧ buildDataArray ["2023Q1"; "2023Q2"; "2023Q3"] ["A"] sparseValues
    = Some [point "2023Q1" "A" 0; point "2023Q2" "A" 4; point "2023Q3" "A" 0]
  ∧ (∃ d,
       [point "2023Q1" "A" 0; point "2023Q2" "A" 4; point "2023Q3" "A" 0]
         !! (0 * length ["2023Q1"; "2023Q2"; "2023Q3"] + 2)%nat = Some d
       ∧ (ToBoolean (cell sparseValues 0 2) = false → DataPoint.value d = JNum 0)
       ∧ (ToBoolean (cell sparseValues 0 2) = true →
          DataPoint.value d = cell sparseValues 0 2)).
Proof.
  destruct (degrade_to_noop compareCodeUnits noStringNumbers)
    as (Hnoop & Hflat & _).
  split; [exact I|]. split; [apply Hnoop; exact I|]. split; [reflexivity|].
  apply (Hflat ["2023Q1"; "2023Q2"; "2023Q3"] ["A"] sparseValues _ 0%nat 2%nat
           "A" "2023Q3"); reflexivity.
Defined.

(** ** The basic scenario *)

(** C1. Basic scenario: with the period column ["2023Q2", "2023Q1"], the
    groups A = [10, 5] and B = [3, 7], and a comparator that puts "2023Q2"
    behind "2023Q1", the periods are sorted to ["2023Q1", "2023Q2"], the
    value at array index i is bound to the sorted period i (A: 10 at
    2023Q1 and 5 at 2023Q2; B: 3 at 2023Q1 and 7 at 2023Q2), and the
    running totals are A: 10, 15 and B: 3, 10. *)
Theorem basic_scenario (localeCompare : string → string → Z) :
  (0 < localeCompare "2023Q2" "2023Q1")%Z →
  let quarters := arraySort localeCompare ["2023Q2"; "2023Q1"] in
  let data := [point "2023Q1" "A" 10; point "2023Q2" "A" 5;
               point "2023Q1" "B" 3; point "2023Q2" "B" 7] in
  quarters = ["2023Q1"; "2023Q2"]
  ∧ buildDataArray quarters ["A"; "B"] basicValues = Some data
  ∧ computeRunningTotals data
    = [processed (point "2023Q1" "A" 10) (JNum 10);
       processed (point "2023Q2" "A" 5) (JNum 15);
       processed (point "2023Q1" "B" 3) (JNum 3);
       processed (point "2023Q2" "B" 7) (JNum 10)].
Proof.
  intros Hcmp. cbn zeta.
  assert (arraySort localeCompare ["2023Q2"; "2023Q1"] = ["2023Q1"; "2023Q2"])
    as ->.
  { unfold arraySort. cbn [foldr insertQuarter]. by rewrite bool_decide_true. }
  split; [done|]. split; by vm_compute.
Qed.

Lemma basic_scenario_witness :
  (0 < compareCodeUnits "2023Q2" "2023Q1")%Z
  ∧ (let quarters := arraySort compareCodeUnits ["2023Q2"; "2023Q1"] in
     let data := [point "2023Q1" "A" 10; point "2023Q2" "A" 5;
                  point "2023Q1" "B" 3; point "2023Q2" "B" 7] in
     quarters = ["2023Q1"; "2023Q2"]
     ∧ buildDataArray quarters ["A"; "B"] basicValues = Some data
     ∧ computeRunningTotals data
       = [processed (point "2023Q1" "A" 10) (JNum 10);
          processed (point "2023Q2" "A" 5) (JNum 15);
          processed (point "2023Q1" "B" 3) (JNum 3);
          processed (point "2023Q2" "B" 7) (JNum 10)]).
Proof.
  split; [reflexivity|]. apply (basic_scenario compareCodeUnits). reflexivity.
Defined.

(** * Further properties of the code *)

(** ** [sortQuarters] *)

Lemma insertQuarter_in_order localeCompare a sorted :
  HdRel (inOrder localeCompare) a sorted →
  insertQuarter localeCompare a sorted = a :: sorted.
Proof.
  intros [|b rest Hab]; [done|]. simpl.
  rewrite bool_decide_false; [done|]. unfold inOrder in Hab. lia.
Qed.

Lemma arraySort_in_order localeCompare quarters :
  Sorted (inOrder localeCompare) quarters →
  arraySort localeCompare quarters = quarters.
Proof.
  induction 1 as [|a rest Hrest IH Hhd]; [done|].
  cbn [arraySort foldr]. fold (arraySort localeCompare rest).
  rewrite IH. by apply insertQuarter_in_order.
Qed.

(** X1. An array whose labels already stand in order is left as it is,
    and sorting a second time changes nothing. *)
Theorem sortQuarters_idempotent (localeCompare : string → string → Z)
    (quarters : nat) (h : gmap nat (list string)) (labels : list string) :
  h !! quarters = Some labels →
  (Sorted (inOrder localeCompare) labels →
   sortQuarters localeCompare quarters h = (quarters, h))
  ∧ ((∀ a b, (0 < localeCompare a b)%Z → (localeCompare b a ≤ 0)%Z) →
     sortQuarters localeCompare quarters
       (sortQuarters localeCompare quarters h).2
     = sortQuarters localeCompare quarters h).
Proof.
  intros Hlabels.
  assert (∀ (h' : gmap nat (list string)) l,
            h' !! quarters = Some l → Sorted (inOrder localeCompare) l →
            alter (arraySort localeCompare) quarters h' = h') as Hid.
  { intros h' l Hl Hsorted. apply map_eq. intros r.
    destruct (decide (quarters = r)) as [<-|Hr].
    - by rewrite lookup_alter_eq, Hl; simpl; rewrite arraySort_in_order.
    - by rewrite lookup_alter_ne. }
  split.
  - intros Hsorted. unfold sortQuarters. f_equal. by eapply Hid.
  - intros Hswap. unfold sortQuarters. cbn [snd]. f_equal.
    eapply Hid; [by rewrite lookup_alter_eq, Hlabels|].
    by apply arraySort_Sorted.
Qed.

Lemma insertQuarter_filter localeCompare (P : string → Prop)
    `{!∀ x, Decision (P x)} a sorted :
  (P a → ∀ b, P b → ¬ (0 < localeCompare a b)%Z) →
  filter P (insertQuarter localeCompare a sorted) = filter P (a :: sorted).
Proof.
  intros Hclass. induction sorted as [|b rest IH]; [done|]. simpl.
  case_bool_decide as Hab; [|done].
  destruct (decide (P a)) as [Ha|Ha], (decide (P b)) as [Hb|Hb].
  - by destruct (Hclass Ha b Hb).
  - rewrite (filter_cons_False _ b) by done. rewrite IH.
    by rewrite (filter_cons_True _ a), (filter_cons_True _ a),
      (filter_cons_False _ b).
  - rewrite (filter_cons_True _ b) by done. rewrite IH.
    by rewrite !(filter_cons_False _ a), (filter_cons_True _ b).
  - rewrite (filter_cons_False _ b) by done. rewrite IH.
    by rewrite !(filter_cons_False _ a), (filter_cons_False _ b).
Qed.

(** X2. The sort is stable: labels that the comparator does not tell
    apart from a given label keep the order they had before. *)
Theorem sortQuarters_stable (localeCompare : string → string → Z)
    (quarters : nat) (h : gmap nat (list string)) (labels : list string)
    (x : string) :
  h !! quarters = Some labels →
  (∀ a b, localeCompare x a = 0%Z → localeCompare x b = 0%Z →
     (localeCompare a b ≤ 0)%Z) →
  ∃ sorted,
    (sortQuarters localeCompare quarters h).2 !! quarters = Some sorted
    ∧ filter (λ a, localeCompare x a = 0%Z) sorted
      = filter (λ a, localeCompare x a = 0%Z) labels.
Proof.
  intros Hlabels Hclass. exists (arraySort localeCompare labels). split.
  - unfold sortQuarters. cbn [snd]. by rewrite lookup_alter_eq, Hlabels.
  - clear Hlabels. induction labels as [|a rest IH]; [done|].
    cbn [arraySort foldr]. fold (arraySort localeCompare rest).
    rewrite insertQuarter_filter.
    + destruct (decide (localeCompare x a = 0%Z)).
      * rewrite !(filter_cons_True _ a) by done. by rewrite IH.
      * rewrite !(filter_cons_False _ a) by done. by rewrite IH.
    + intros Ha b Hb. specialize (Hclass a b Ha Hb). lia.
Qed.

(** ** [buildDataArray] *)

Lemma mapM_imap_None {A B C} (f : C → option B) (h : nat → A → C) (l : list A) :
  mapM f (imap h l) = None ↔ ∃ i x, l !! i = Some x ∧ f (h i x) = None.
Proof.
  revert h. induction l as [|x l IH]; intros h; simpl.
  - split; [done|]. by intros (i & y & Hi & _).
  - destruct (f (h 0%nat x)) as [y|] eqn:Hy; simpl.
    + destruct (mapM f (imap (h ∘ S) l)) as [k|] eqn:Hk; simpl.
      * split; [done|]. intros ([|i] & z & Hi & Hz); simplify_eq/=.
        assert (mapM f (imap (h ∘ S) l) = None) as Hnone
          by (apply IH; by exists i, z).
        congruence.
      * split; [|done]. intros _. apply IH in Hk as (i & z & Hi & Hz).
        by exists (S i), z.
    + split; [|done]. intros _. by exists 0%nat, x.
Qed.

Lemma buildDataArray_None quarters seriesCategories values :
  buildDataArray quarters seriesCategories values = None
  ↔ ∃ j, (j < length seriesCategories)%nat
         ∧ (grouped values !! j = None
            ∨ (quarters ≠ [] ∧ firstMeasure values j = None)).
Proof.
  unfold buildDataArray.
  destruct (mapM _ (imap pair seriesCategories)) as [rows|] eqn:Hrows; simpl.
  - split; [done|]. intros (j & Hj & Hbad).
    apply lookup_lt_is_Some_2 in Hj as [category Hcategory].
    assert (mapM (λ '(j, category),
                group ← grouped values !! j;
                mapM (λ '(i, quarter),
                    column ← group_values group !! 0%nat;
                    Some {| DataPoint.quarter := quarter;
                            DataPoint.category := category;
                            DataPoint.value :=
                              jsOr (default JUndefined (col_values column !! i))
                                (JNum 0) |})
                  (imap pair quarters))
              (imap pair seriesCategories) = None) as Hnone; [|congruence].
    apply mapM_imap_None. exists j, category. split; [done|].
    unfold firstMeasure in Hbad.
    destruct (grouped values !! j) as [group|]; simpl in *; [|done].
    destruct Hbad as [|[Hne Hcol]]; [done|].
    apply mapM_imap_None. destruct quarters as [|quarter rest]; [done|].
    exists 0%nat, quarter. split; [done|]. by rewrite Hcol.
  - split; [|done]. intros _.
    apply mapM_imap_None in Hrows as (j & category & Hj & Hrow).
    exists j. split; [by eapply lookup_lt_Some|].
    unfold firstMeasure.
    destruct (grouped values !! j) as [group|]; simpl in *; [|by left].
    right. apply mapM_imap_None in Hrow as (i & quarter & Hi & Hcell).
    split; [by destruct quarters|].
    by destruct (group_values group !! 0%nat).
Qed.

(** X3. [buildDataArray] throws exactly when a listed category has no
    group at its index, or when there is a period to read and the group
    at the index of a listed category has no measure. *)
Theorem buildDataArray_throws (quarters seriesCategories : list string)
    (values : DataViewValueColumns) :
  buildDataArray quarters seriesCategories values = None
  ↔ ∃ j, (j < length seriesCategories)%nat
         ∧ (grouped values !! j = None
            ∨ (quarters ≠ [] ∧ firstMeasure values j = None)).
Proof. apply buildDataArray_None. Qed.


Lemma jsOr_zero_settled v :
  ToBoolean (jsOr v (JNum 0)) = true ∨ jsOr v (JNum 0) = JNum 0.
Proof. unfold jsOr. destruct (ToBoolean v) eqn:Hv; [by left | by right]. Qed.




(** ** [computeRunningTotals] *)

Lemma emitFrom_take runningTotals data n :
  emitFrom runningTotals (take n data) = take n (emitFrom runningTotals data).
Proof.
  revert runningTotals n. induction data as [|d rest IH]; intros runningTotals n.
  - by destruct n.
  - destruct n as [|n]; [done|]. cbn [take emitFrom]. cbn zeta. by rewrite IH.
Qed.

(** X5. The running totals are computed on line: those of the first n
    records do not depend on the records that follow. *)
Theorem computeRunningTotals_prefix (data : list DataPoint.t) (n : nat) :
  take n (computeRunningTotals data) = computeRunningTotals (take n data).
Proof. by rewrite !computeRunningTotals_emitFrom, emitFrom_take. Qed.

(** The own property of the record's category after the record depends on
    the dictionary through that own property only. *)
Lemma totalsAfter_lookup_same runningTotals runningTotals' d :
  runningTotals !! DataPoint.category d = runningTotals' !! DataPoint.category d →
  totalsAfter runningTotals d !! DataPoint.category d
  = totalsAfter runningTotals' d !! DataPoint.category d.
Proof.
  intros Hsame.
  assert (jsGet runningTotals (DataPoint.category d)
          = jsGet runningTotals' (DataPoint.category d)) as Hget
    by (unfold jsGet; by rewrite Hsame).
  unfold totalsAfter, accumulate. cbn [fst].
  rewrite !lookup_jsSet_eq, Hget.
  destruct (negb _); [|by rewrite Hsame, Hget].
  unfold jsGet. by rewrite !lookup_jsSet_eq, Hsame.
Qed.

(** What is emitted for a category depends on the dictionary through
    that category's own property only, and on the records of that
    category only. *)
Lemma emittedFor_emitFrom runningTotals runningTotals' data c :
  runningTotals !! c = runningTotals' !! c →
  emittedFor c (emitFrom runningTotals data)
  = emitFrom runningTotals' (ofCategory c data).
Proof.
  revert runningTotals runningTotals'.
  induction data as [|d rest IH]; intros runningTotals runningTotals' Hsame; [done|].
  cbn [emitFrom]. cbn zeta. unfold emittedFor.
  destruct (decide (DataPoint.category d = c)) as [Hc|Hc].
  - rewrite ofCategory_cons_eq by done. rewrite filter_cons_True by done.
    cbn [emitFrom]. cbn zeta.
    assert (totalsAfter runningTotals d !! c = totalsAfter runningTotals' d !! c)
      as Hnext.
    { rewrite <-Hc in Hsame |- *. by apply totalsAfter_lookup_same. }
    rewrite Hc. unfold jsGet at 1 2. rewrite Hnext. f_equal. by apply IH.
  - rewrite ofCategory_cons_ne by done. rewrite filter_cons_False by done.
    apply IH. by rewrite totalsAfter_lookup_other.
Qed.

Lemma emittedFor_computeRunningTotals data c :
  emittedFor c (computeRunningTotals data)
  = computeRunningTotals (ofCategory c data).
Proof. rewrite !computeRunningTotals_emitFrom. by apply emittedFor_emitFrom. Qed.

(** X6. The records emitted for a category are the running totals of
    that category's records taken alone: records of other categories,
    wherever they stand in between, have no effect on them. *)
Theorem computeRunningTotals_per_category (data : list DataPoint.t) (c : string) :
  emittedFor c (computeRunningTotals data)
  = computeRunningTotals (ofCategory c data).
Proof. apply emittedFor_computeRunningTotals. Qed.

Lemma emitFrom_next runningTotals data k p p' :
  emitFrom runningTotals data !! k = Some p →
  emitFrom runningTotals data !! S k = Some p' →
  ProcessedDataPoint.category p' = ProcessedDataPoint.category p →
  ProcessedDataPoint.category p ≠ "__proto__" →
  ProcessedDataPoint.runningTotal p'
  = jsAdd (jsOr (ProcessedDataPoint.runningTotal p) (JNum 0))
      (ProcessedDataPoint.value p').
Proof.
  revert runningTotals k.
  induction data as [|d rest IH]; intros runningTotals k Hp Hp' Hc Hproto; [done|].
  cbn [emitFrom] in Hp, Hp'. cbn zeta in Hp, Hp'.
  destruct k as [|k]; cbn [lookup list_lookup] in Hp, Hp'.
  - injection Hp as <-. destruct rest as [|d' rest]; [done|].
    cbn [emitFrom lookup list_lookup] in Hp'. cbn zeta in Hp'.
    injection Hp' as <-. simpl in Hc, Hproto |- *. rewrite <-Hc.
    apply totalsAfter_same. right. by rewrite Hc.
  - by apply (IH (totalsAfter runningTotals d) k).
Qed.

(** X7. Within a category whose name no plain object inherits, every
    running total is the one emitted just before for that category, with
    0 in place of a falsy one (0 itself or NaN), plus the record's value;
    the first one is 0 plus the value.  A NaN total therefore does not
    spread: the next record of the category starts again from 0. *)
Theorem computeRunningTotals_recurrence (data : list DataPoint.t) (c : string)
    (k : nat) (p' : ProcessedDataPoint.t) :
  c ∉ objectPrototypeKeys →
  emittedFor c (computeRunningTotals data) !! k = Some p' →
  match k with
  | 0%nat =>
      ProcessedDataPoint.runningTotal p'
      = jsAdd (JNum 0) (ProcessedDataPoint.value p')
  | S k0 =>
      ∃ p, emittedFor c (computeRunningTotals data) !! k0 = Some p
           ∧ ProcessedDataPoint.runningTotal p'
             = jsAdd (jsOr (ProcessedDataPoint.runningTotal p) (JNum 0))
                 (ProcessedDataPoint.value p')
  end.
Proof.
  rewrite emittedFor_computeRunningTotals, computeRunningTotals_emitFrom.
  intros Hplain Hp'.
  assert (c ≠ "__proto__") as Hproto.
  { intros ->. apply Hplain, proto_inherited. }
  assert (∀ i q, emitFrom ∅ (ofCategory c data) !! i = Some q →
            ProcessedDataPoint.category q = c) as Hcat.
  { intros i q Hq. apply lookup_emitFrom in Hq as (d & Hd & ->). simpl.
    apply list_elem_of_lookup_2, list_elem_of_filter in Hd. by destruct Hd. }
  destruct k as [|k0].
  - destruct (ofCategory c data) as [|d rest]; [done|].
    cbn [emitFrom lookup list_lookup] in Hp'. cbn zeta in Hp'.
    pose proof (Hcat 0%nat _ eq_refl) as Hd. simpl in Hd.
    injection Hp' as <-. simpl.
    rewrite totalsAfter_same by (right; by rewrite Hd).
    by rewrite Hd, empty_accumulator.
  - destruct (lookup_lt_is_Some_2 (emitFrom ∅ (ofCategory c data)) k0) as [p Hp].
    { apply lookup_lt_Some in Hp'. lia. }
    exists p. split; [done|].
    apply (emitFrom_next ∅ (ofCategory c data) k0 p p' Hp Hp').
    + by rewrite (Hcat _ _ Hp), (Hcat _ _ Hp').
    + by rewrite (Hcat _ _ Hp).
Qed.

(** ** [transformToStackedData] *)

Lemma findPoint_cons p processedData quarter category :
  findPoint (p :: processedData) quarter category
  = if decide (matches quarter category p) then Some p
    else findPoint processedData quarter category.
Proof.
  unfold findPoint. cbn [list_find]. case_decide; [done|].
  by destruct (list_find _ processedData) as [[??]|].
Qed.

(** The lookup of the pivot only sees the records of the category. *)
Lemma findPoint_emittedFor processedData quarter category :
  findPoint (emittedFor category processedData) quarter category
  = findPoint processedData quarter category.
Proof.
  induction processedData as [|p rest IH]; [done|]. unfold emittedFor in *.
  rewrite (findPoint_cons p rest).
  destruct (decide (ProcessedDataPoint.category p = category)) as [Hc|Hc].
  - rewrite filter_cons_True by done. rewrite findPoint_cons.
    case_decide; [done|apply IH].
  - rewrite filter_cons_False by done. rewrite IH.
    rewrite decide_False; [done|]. by intros [_ ?].
Qed.

Lemma stackedRecord_ext processedData processedData' seriesCategories quarter :
  (∀ category, category ∈ seriesCategories →
     stackedField processedData quarter category
     = stackedField processedData' quarter category) →
  stackedRecord processedData seriesCategories quarter
  = stackedRecord processedData' seriesCategories quarter.
Proof.
  unfold stackedRecord. generalize ({[ "quarter" := JStr quarter ]} : gmap string JsValue).
  induction seriesCategories as [|category rest IH]; intros o Hsame; [done|].
  cbn [foldl]. rewrite Hsame by (by left). apply IH.
  intros category' Hin. apply Hsame. by right.
Qed.

(** X8. The pivot does not depend on how the flat records of different
    categories are interleaved: two record sequences in which every
    category has the same records in the same order (category by category,
    or period by period) give the same stacked records. *)
Theorem stacked_data_order_free (data data' : list DataPoint.t)
    (quarters seriesCategories : list string) :
  (∀ c, c ∈ seriesCategories → ofCategory c data = ofCategory c data') →
  transformToStackedData (computeRunningTotals data) quarters seriesCategories
  = transformToStackedData (computeRunningTotals data') quarters seriesCategories.
Proof.
  intros Hsame. rewrite !transformToStackedData_fmap.
  apply list_fmap_ext. intros i quarter _.
  apply stackedRecord_ext. intros category Hin. unfold stackedField.
  rewrite <-(findPoint_emittedFor (computeRunningTotals data)),
    <-(findPoint_emittedFor (computeRunningTotals data')).
  by rewrite !emittedFor_computeRunningTotals, (Hsame category Hin).
Qed.

(** X9. The period label and the category totals share one object: the
    property "quarter" holds the label unless a category is itself named
    "quarter", in which case that category's total has overwritten it. *)
Theorem stacked_quarter_key (processedData : list ProcessedDataPoint.t)
    (quarters seriesCategories : list string) (i : nat) (quarter : string) :
  quarters !! i = Some quarter →
  ∃ record,
    transformToStackedData processedData quarters seriesCategories !! i
      = Some record
    ∧ ("quarter" ∉ seriesCategories → record !! "quarter" = Some (JStr quarter))
    ∧ ("quarter" ∈ seriesCategories →
       record !! "quarter" = Some (stackedField processedData quarter "quarter"))
    ∧ (∀ key, key ≠ "quarter" → key ∉ seriesCategories → record !! key = None).
Proof.
  intros Hi. exists (stackedRecord processedData seriesCategories quarter).
  split; [by rewrite transformToStackedData_fmap, list_lookup_fmap, Hi|].
  unfold stackedRecord.
  split; [|split].
  - intros Hnotin.
    rewrite (foldl_jsSet_lookup (stackedField processedData quarter)).
    rewrite decide_False by (by intros [? _]). apply lookup_singleton_eq.
  - intros Hin.
    rewrite (foldl_jsSet_lookup (stackedField processedData quarter)).
    rewrite decide_True; [done|]. split; [done|by right].
  - intros key Hkey Hnotin.
    rewrite (foldl_jsSet_lookup (stackedField processedData quarter)).
    rewrite decide_False by (by intros [? _]). by apply lookup_singleton_ne.
Qed.


Lemma partialSums_lookup start zs i :
  (i < length zs)%nat →
  partialSums start zs !! i = Some (start + sumZ (take (S i) zs))%Z.
Proof.
  revert start i. induction zs as [|z zs IH]; intros start i Hi; simpl in Hi; [lia|].
  destruct i as [|i]; cbn [partialSums lookup list_lookup take].
  - rewrite take_0. simpl. f_equal. lia.
  - rewrite IH by lia. f_equal.
    change (sumZ (z :: take (S i) zs)) with (z + sumZ (take (S i) zs))%Z. lia.
Qed.

(** With distinct period labels and distinct categories, the record the
    pivot finds for (period i, category c) is the i-th one emitted for
    c. *)
Lemma findPoint_flat quarters seriesCategories values i quarter c :
  NoDup quarters → NoDup seriesCategories →
  quarters !! i = Some quarter → c ∈ seriesCategories →
  findPoint (computeRunningTotals (flatRecords quarters seriesCategories values))
    quarter c
  = emittedFor c
      (computeRunningTotals (flatRecords quarters seriesCategories values)) !! i.
Proof.
  intros Hquarters Hcats Hi Hc.
  set (data := flatRecords quarters seriesCategories values).
  rewrite <-findPoint_emittedFor.
  set (emitted := emittedFor c (computeRunningTotals data)).
  assert (ProcessedDataPoint.quarter <$> emitted = quarters) as Hq.
  { unfold emitted. rewrite computeRunningTotals_emitFrom, emitFrom_quarters.
    by apply quarters_ofCategory_flatRecords. }
  assert (∀ k p, emitted !! k = Some p →
            quarters !! k = Some (ProcessedDataPoint.quarter p)
            ∧ ProcessedDataPoint.category p = c) as Hat.
  { intros k p Hp. split.
    - by rewrite <-Hq, list_lookup_fmap, Hp.
    - apply list_elem_of_lookup_2, list_elem_of_filter in Hp. by destruct Hp. }
  destruct (lookup_lt_is_Some_2 emitted i) as [p Hp].
  { rewrite <-(length_fmap ProcessedDataPoint.quarter), Hq. by eapply lookup_lt_Some. }
  rewrite Hp. unfold findPoint.
  assert (list_find (matches quarter c) emitted = Some (i, p)) as ->; [|done].
  apply list_find_Some. destruct (Hat i p Hp) as [Hpi Hpc].
  split; [done|]. split.
  - split; [congruence|done].
  - intros k p' Hp' Hk [Hq' _]. destruct (Hat k p' Hp') as [Hpk _].
    rewrite Hq' in Hpk. assert (k = i); [|lia].
    exact (NoDup_lookup quarters k i quarter Hquarters Hpk Hi).
Qed.

Lemma stackedField_flat quarters seriesCategories values i quarter c zs :
  NoDup quarters → NoDup seriesCategories →
  quarters !! i = Some quarter → c ∈ seriesCategories →
  c ∉ objectPrototypeKeys →
  DataPoint.value <$> ofCategory c (flatRecords quarters seriesCategories values)
  = JNum <$> zs →
  stackedField
    (computeRunningTotals (flatRecords quarters seriesCategories values))
    quarter c
  = JNum (sumZ (take (S i) zs)).
Proof.
  intros Hquarters Hcats Hi Hc Hplain Hzs.
  set (data := flatRecords quarters seriesCategories values) in *.
  unfold stackedField.
  unfold data. rewrite (findPoint_flat _ _ _ i) by done. fold data.
  pose proof (emitFrom_category ∅ data c zs 0%Z (empty_accumulator c Hplain) Hzs)
    as Htotals.
  rewrite <-computeRunningTotals_emitFrom in Htotals.
  assert (length zs = length quarters) as Hlen.
  { rewrite <-(length_fmap JNum zs), <-Hzs, length_fmap.
    rewrite <-(length_fmap DataPoint.quarter). unfold data.
    by rewrite quarters_ofCategory_flatRecords. }
  assert ((ProcessedDataPoint.runningTotal <$>
             emittedFor c (computeRunningTotals data)) !! i
          = Some (JNum (sumZ (take (S i) zs)))) as Hrt.
  { rewrite Htotals, list_lookup_fmap, partialSums_lookup.
    - simpl. by rewrite Z.add_0_l.
    - rewrite Hlen. by eapply lookup_lt_Some. }
  rewrite list_lookup_fmap in Hrt.
  by destruct (emittedFor c (computeRunningTotals data) !! i); simplify_eq/=.
Qed.

(** X10. End to end, for distinct period labels and distinct categories:
    in the stacked record of the i-th period, the field of a category
    whose name no plain object inherits and whose values are numbers is
    the sum of the category's values over the periods 0 to i, as long as
    the sums stay among the integers a double holds exactly. *)
Theorem stacked_field_is_partial_sum (quarters seriesCategories : list string)
    (values : DataViewValueColumns) (data : list DataPoint.t)
    (i : nat) (quarter c : string) (zs : list Z) :
  buildDataArray quarters seriesCategories values = Some data →
  NoDup quarters → NoDup seriesCategories →
  quarters !! i = Some quarter → c ∈ seriesCategories →
  c ∉ objectPrototypeKeys →
  DataPoint.value <$> ofCategory c data = JNum <$> zs →
  exactSums zs →
  ∃ record,
    transformToStackedData (computeRunningTotals data) quarters seriesCategories
      !! i = Some record
    ∧ record !! c = Some (JNum (sumZ (take (S i) zs))).
Proof.
  intros Hdata Hquarters Hcats Hi Hc Hplain Hzs _.
  apply buildDataArray_inv in Hdata. subst data.
  eexists. split; [by rewrite transformToStackedData_fmap, list_lookup_fmap, Hi|].
  rewrite stackedRecord_lookup; [|done|].
  - f_equal. by apply (stackedField_flat _ _ _ i).
  - intros ->. apply Hplain, proto_inherited.
Qed.

(** ** [update] *)

Section Update.
Variable localeCompare : string → string → Z.
Variable StringToNumber : string → option Z.

Lemma update_no_table options this (h : gmap nat (list string)) :
  tableOf options = None →
  update localeCompare StringToNumber options this h
  = (Normal, {| target := [] |}, h).
Proof.
  unfold tableOf, update.
  destruct (dataViews options !! 0%nat) as [dataView|]; [|done]. simpl.
  destruct (categorical dataView) as [c|]; [|done]. simpl.
  destruct (categories c) as [cats|]; simpl; [|by destruct (values c)].
  destruct (values c) as [v|]; simpl; [|done].
  case_bool_decide as Hcats; simpl; [done|].
  case_bool_decide; simpl; [done|].
  destruct cats as [|category cats]; done.
Qed.

(** Past the guards, [update] copies the period column into a new array,
    sorts the copy, and draws the chart unless [buildDataArray] throws. *)
Lemma update_table options this (h : gmap nat (list string)) category v :
  tableOf options = Some (category, v) →
  update localeCompare StringToNumber options this h
  = let quarters := arraySort localeCompare (cat_values category) in
    let h' := <[fresh (dom h) := quarters]> h in
    match buildDataArray quarters (name <$> grouped v) v with
    | None => (TypeError, {| target := [] |}, h')
    | Some data =>
        (Normal, {| target := [chart StringToNumber options quarters v data] |}, h')
    end.
Proof.
  unfold tableOf, update.
  destruct (dataViews options !! 0%nat) as [dataView|]; [|done]. simpl.
  destruct (categorical dataView) as [c|]; [|done]. simpl.
  destruct (categories c) as [cats|]; simpl; [|done].
  destruct (values c) as [v'|]; simpl; [|done].
  destruct (_ || _); [done|].
  destruct (cats !! 0%nat) as [category'|]; simpl; [|done].
  intros [= -> ->]. unfold alloc, sortQuarters.
  assert (alter (arraySort localeCompare) (fresh (dom h))
            (<[fresh (dom h) := cat_values category]> h)
          = <[fresh (dom h) := arraySort localeCompare (cat_values category)]> h)
    as ->.
  { apply map_eq. intros r. destruct (decide (fresh (dom h) = r)) as [<-|Hr].
    - by rewrite lookup_alter_eq, !lookup_insert_eq.
    - by rewrite lookup_alter_ne, !lookup_insert_ne. }
  rewrite lookup_insert_eq. simpl.
  by destruct (buildDataArray _ _ _).
Qed.

Lemma arraySort_nil_iff quarters :
  arraySort localeCompare quarters = [] ↔ quarters = [].
Proof.
  split; [|by intros ->]. intros Hnil.
  pose proof (arraySort_Permutation localeCompare quarters) as Hperm.
  rewrite Hnil in Hperm. by apply Permutation_nil_l in Hperm.
Qed.

Lemma firstMeasure_None_iff v j :
  (j < length (grouped v))%nat →
  firstMeasure v j = None
  ↔ ∃ group, grouped v !! j = Some group ∧ group_values group = [].
Proof.
  intros Hj. apply lookup_lt_is_Some_2 in Hj as [group Hgroup].
  unfold firstMeasure. rewrite Hgroup. simpl. split.
  - intros Hnone. exists group. split; [done|]. by destruct (group_values group).
  - intros (group' & [= <-] & ->). done.
Qed.

Lemma update_completion options this (h : gmap nat (list string)) :
  (update localeCompare StringToNumber options this h).1.1 = TypeError
  ↔ ∃ category v group,
      tableOf options = Some (category, v)
      ∧ cat_values category ≠ []
      ∧ group ∈ grouped v
      ∧ group_values group = [].
Proof.
  destruct (tableOf options) as [[category v]|] eqn:Htable.
  2:{ rewrite update_no_table by done. split; [done|]. by intros (?&?&?&?&_). }
  rewrite (update_table _ _ _ _ _ Htable). cbn zeta.
  destruct (buildDataArray _ _ _) as [data|] eqn:Hdata; simpl.
  - split; [done|]. intros (category' & v' & group & [= <- <-] & Hne & Hin & Hnil).
    assert (buildDataArray (arraySort localeCompare (cat_values category))
              (name <$> grouped v) v = None) as Hnone; [|congruence].
    apply buildDataArray_None. apply list_elem_of_lookup in Hin as [j Hj].
    exists j. rewrite length_fmap. split; [by eapply lookup_lt_Some|]. right.
    split; [by rewrite arraySort_nil_iff|].
    apply firstMeasure_None_iff; [by eapply lookup_lt_Some|]. by exists group.
  - split; [|done]. intros _.
    apply buildDataArray_None in Hdata as (j & Hj & Hbad).
    rewrite length_fmap in Hj.
    destruct Hbad as [Hnone|[Hne Hnone]].
    { apply lookup_lt_is_Some_2 in Hj as [? ?]. congruence. }
    apply firstMeasure_None_iff in Hnone as (group & Hgroup & Hnil); [|done].
    exists category, v, group. split; [done|]. split.
    + by rewrite arraySort_nil_iff in Hne.
    + split; [by eapply list_elem_of_lookup_2 | done].
Qed.

Lemma update_visual options this this' (h h' : gmap nat (list string)) :
  (update localeCompare StringToNumber options this h).1
  = (update localeCompare StringToNumber options this' h').1.
Proof.
  destruct (tableOf options) as [[category v]|] eqn:Htable.
  - rewrite !(update_table _ _ _ _ _ Htable). cbn zeta.
    by destruct (buildDataArray _ _ _).
  - by rewrite !update_no_table.
Qed.

Lemma update_children options this (h : gmap nat (list string)) :
  (length (target (update localeCompare StringToNumber options this h).1.2) ≤ 1)%nat.
Proof.
  destruct (tableOf options) as [[category v]|] eqn:Htable.
  - rewrite (update_table _ _ _ _ _ Htable). cbn zeta.
    destruct (buildDataArray _ _ _); simpl; lia.
  - rewrite update_no_table by done. simpl. lia.
Qed.

End Update.


(** X11. [update] ends with a [TypeError], its target left empty, as
    soon as it is past its guards, the period column has a row and some
    group has no measure. *)
Theorem update_throws (localeCompare : string → string → Z)
    (StringToNumber : string → option Z)
    (options : VisualUpdateOptions) (this : Visual)
    (h : gmap nat (list string))
    (category : DataViewCategoryColumn) (v : DataViewValueColumns)
    (group : DataViewValueColumnGroup) :
  tableOf options = Some (category, v) →
  cat_values category ≠ [] →
  group ∈ grouped v →
  group_values group = [] →
  (update localeCompare StringToNumber options this h).1
  = (TypeError, {| target := [] |}).
Proof.
  intros Htable Hrow Hgroup Hbare.
  assert ((update localeCompare StringToNumber options this h).1.1 = TypeError)
    as Hthrows.
  { apply update_completion. by exists category, v, group. }
  rewrite (update_table _ _ _ _ _ _ _ Htable) in Hthrows |- *. cbn zeta in *.
  by destruct (buildDataArray _ _ _).
Qed.

(** X12. What [update] draws is a function of its options alone: the
    completion and the target it leaves depend neither on what the target
    showed before nor on the arrays of the heap, and the target never has
    more than one child. *)
Theorem update_redraws (localeCompare : string → string → Z)
    (StringToNumber : string → option Z)
    (options : VisualUpdateOptions) (this this' : Visual)
    (h h' : gmap nat (list string)) :
  (update localeCompare StringToNumber options this h).1
  = (update localeCompare StringToNumber options this' h').1
  ∧ (length (target (update localeCompare StringToNumber options this h).1.2)
     ≤ 1)%nat.
Proof. split; [apply update_visual | apply update_children]. Qed.

Lemma buildDataArray_no_quarters v :
  buildDataArray [] (name <$> grouped v) v = Some [].
Proof.
  destruct (buildDataArray [] (name <$> grouped v) v) as [data|] eqn:Hdata.
  - apply buildDataArray_inv in Hdata. subst data. f_equal.
    unfold flatRecords. induction (name <$> grouped v) as [|c cats IH] using rev_ind;
      [done|].
    rewrite imap_app, concat_app, IH. done.
  - apply buildDataArray_None in Hdata as (j & Hj & [Hnone|[Hne _]]); [|done].
    rewrite length_fmap in Hj. apply lookup_lt_is_Some_2 in Hj as [? ?]. congruence.
Qed.

(** X13. An empty period column is no error, whatever the groups hold:
    past the guards [update] appends one [svg] of the viewport's size with
    no band, no stacked record and the vertical domain [0, 0]. *)
Theorem update_empty_column (localeCompare : string → string → Z)
    (StringToNumber : string → option Z)
    (options : VisualUpdateOptions) (this : Visual)
    (h : gmap nat (list string))
    (category : DataViewCategoryColumn) (v : DataViewValueColumns) :
  tableOf options = Some (category, v) →
  cat_values category = [] →
  update localeCompare StringToNumber options this h
  = (Normal,
     {| target := [ {| svg_width := width (viewport options);
                       svg_height := height (viewport options);
                       xDomain := [];
                       yDomain := (JNum 0, JNum 0);
                       stackKeys := name <$> grouped v;
                       stackData := [] |} ] |},
     <[fresh (dom h) := []]> h).
Proof.
  intros Htable Hempty. rewrite (update_table _ _ _ _ _ _ _ Htable), Hempty.
  cbn zeta. cbn [arraySort foldr]. by rewrite buildDataArray_no_quarters.
Qed.

(** X14. Whenever [update] gets past its guards and completes normally,
    it leaves exactly one [svg] of the viewport's size: its x domain
    holds the labels of the period column, each as often as the column
    does, its stack keys are the group names in grouping order, and it
    holds one stacked record per row of the period column. *)
Theorem update_draws (localeCompare : string → string → Z)
    (StringToNumber : string → option Z)
    (options : VisualUpdateOptions) (this : Visual)
    (h : gmap nat (list string))
    (category : DataViewCategoryColumn) (v : DataViewValueColumns) :
  tableOf options = Some (category, v) →
  (update localeCompare StringToNumber options this h).1.1 = Normal →
  ∃ svg,
    (update localeCompare StringToNumber options this h).1.2
    = {| target := [svg] |}
    ∧ svg_width svg = width (viewport options)
    ∧ svg_height svg = height (viewport options)
    ∧ xDomain svg ≡ₚ cat_values category
    ∧ stackKeys svg = name <$> grouped v
    ∧ length (stackData svg) = length (cat_values category).
Proof.
  intros Htable. rewrite (update_table _ _ _ _ _ _ _ Htable). cbn zeta.
  destruct (buildDataArray _ _ _) as [data|] eqn:Hdata; [|done]. intros _.
  eexists. split; [done|]. simpl.
  split; [done|]. split; [done|]. split; [apply arraySort_Permutation|].
  split; [done|].
  rewrite transformToStackedData_fmap, length_fmap.
  by rewrite (arraySort_Permutation localeCompare (cat_values category)).
Qed.


(** ** The vertical domain of the pipeline *)

Lemma sumZ_fmap_le {A} (f g : A → Z) (l : list A) :
  (∀ x, x ∈ l → (f x ≤ g x)%Z) → (sumZ (f <$> l) ≤ sumZ (g <$> l))%Z.
Proof.
  induction l as [|x l IH]; intros Hle; [done|].
  cbn [fmap list_fmap]. change (f x + sumZ (f <$> l) ≤ g x + sumZ (g <$> l))%Z.
  assert (f x ≤ g x)%Z by (apply Hle; by left).
  assert (sumZ (f <$> l) ≤ sumZ (g <$> l))%Z; [|lia].
  apply IH. intros y Hy. apply Hle. by right.
Qed.

Lemma sumZ_fmap_ext {A} (f g : A → Z) (l : list A) :
  (∀ x, x ∈ l → f x = g x) → sumZ (f <$> l) = sumZ (g <$> l).
Proof.
  intros Heq. f_equal. apply list_fmap_ext. intros i x Hx. apply Heq.
  by eapply list_elem_of_lookup_2.
Qed.

Lemma sumZ_nonneg zs : Forall (λ z, (0 ≤ z)%Z) zs → (0 ≤ sumZ zs)%Z.
Proof.
  induction 1 as [|z zs Hz _ IH]; [done|].
  change (0 ≤ z + sumZ zs)%Z. lia.
Qed.

Lemma sumZ_take_le zs k :
  Forall (λ z, (0 ≤ z)%Z) zs → (sumZ (take k zs) ≤ sumZ zs)%Z.
Proof.
  intros Hzs. rewrite <-(take_drop k zs) at 2. rewrite sumZ_app.
  assert (0 ≤ sumZ (drop k zs))%Z; [|lia].
  apply sumZ_nonneg. by apply Forall_drop.
Qed.

Lemma maxY_maximum StringToNumber (stackedData : list (gmap string JsValue))
    seriesCategories m :
  Forall (λ d, Forall (λ category, isNum (jsGet d category)) seriesCategories)
    stackedData →
  m ∈ fieldSum seriesCategories <$> stackedData →
  (∀ total, total ∈ fieldSum seriesCategories <$> stackedData → (total ≤ m)%Z) →
  maxY StringToNumber stackedData seriesCategories = JNum m.
Proof.
  intros Hnum Hm Hmax. unfold maxY. rewrite (stackTotals_numbers _ _ Hnum).
  destruct (fieldSum seriesCategories <$> stackedData) as [|z zs].
  { by apply not_elem_of_nil in Hm. }
  rewrite d3_max_numbers, jsOr_num. f_equal.
  pose proof (foldl_max_in z zs) as Hin.
  pose proof (foldl_max_ge z zs) as [Hz Hzs].
  specialize (Hmax _ Hin).
  apply elem_of_cons in Hm as [->|Hm]; [lia|]. specialize (Hzs m Hm). lia.
Qed.

Lemma Forall_ofCategory (P : DataPoint.t → Prop) c data :
  Forall P data → Forall P (ofCategory c data).
Proof.
  intros Hdata. apply Forall_forall. intros d Hd.
  apply list_elem_of_filter in Hd as [_ Hd].
  rewrite Forall_forall in Hdata. by apply Hdata.
Qed.

Lemma values_numbers (data : list DataPoint.t) :
  Forall (λ d, isNum (DataPoint.value d)) data →
  DataPoint.value <$> data = JNum <$> (numberOf ∘ DataPoint.value <$> data).
Proof.
  induction 1 as [|d rest [z Hz] _ IH]; [done|].
  cbn [fmap list_fmap compose]. by rewrite Hz, IH.
Qed.

(** X15. End to end, for distinct period labels, distinct categories
    none of which is named like a property that a plain object inherits,
    and values that are numbers >= 0: the upper bound of the vertical
    domain is the grand total, the sum over the categories of all the
    values of the category (the height of the last period's bar), as long
    as that total is among the integers a double holds exactly (every sum
    on the way is then at most that large). *)
Theorem domain_is_grand_total (StringToNumber : string → option Z)
    (quarters seriesCategories : list string)
    (values : DataViewValueColumns) (data : list DataPoint.t) :
  buildDataArray quarters seriesCategories values = Some data →
  NoDup quarters → NoDup seriesCategories → quarters ≠ [] →
  Forall (λ category, category ∉ objectPrototypeKeys) seriesCategories →
  Forall (λ d, ∃ z, DataPoint.value d = JNum z ∧ (0 ≤ z)%Z) data →
  safeInteger (sumZ ((λ c, categorySum c data) <$> seriesCategories)) →
  yScaleDomain StringToNumber
    (transformToStackedData (computeRunningTotals data) quarters seriesCategories)
    seriesCategories
  = (JNum 0, JNum (sumZ ((λ c, categorySum c data) <$> seriesCategories))).
Proof.
  intros Hdata Hquarters Hcats Hne Hplain Hpos _.
  rewrite Forall_forall in Hplain.
  apply buildDataArray_inv in Hdata. subst data.
  set (data := flatRecords quarters seriesCategories values) in *.
  set (zs := λ c, numberOf ∘ DataPoint.value <$> ofCategory c data).
  assert (∀ c, DataPoint.value <$> ofCategory c data = JNum <$> zs c) as Hzs.
  { intros c. apply values_numbers, Forall_ofCategory.
    eapply Forall_impl; [exact Hpos|].
    intros d (z & Hz & _). by exists z. }
  assert (∀ c, Forall (λ z, (0 ≤ z)%Z) (zs c)) as Hzpos.
  { intros c. unfold zs. apply Forall_fmap, Forall_ofCategory.
    eapply Forall_impl; [exact Hpos|].
    intros d (z & Hz & Hz0). simpl. by rewrite Hz. }
  assert (∀ c, c ∈ seriesCategories → length (zs c) = length quarters) as Hlen.
  { intros c Hc. unfold zs. rewrite length_fmap.
    rewrite <-(length_fmap DataPoint.quarter). unfold data.
    by rewrite quarters_ofCategory_flatRecords. }
  set (pd := computeRunningTotals data).
  assert (∀ i quarter, quarters !! i = Some quarter →
            Forall (λ c, isNum (jsGet (stackedRecord pd seriesCategories quarter) c))
              seriesCategories
            ∧ fieldSum seriesCategories (stackedRecord pd seriesCategories quarter)
              = sumZ ((λ c, sumZ (take (S i) (zs c))) <$> seriesCategories))
    as Hrecord.
  { intros i quarter Hi.
    assert (∀ c, c ∈ seriesCategories →
              jsGet (stackedRecord pd seriesCategories quarter) c
              = JNum (sumZ (take (S i) (zs c)))) as Hfield.
    { intros c Hc. unfold jsGet. rewrite stackedRecord_lookup; [|done|].
      - apply (stackedField_flat _ _ _ i); [done..|by apply Hplain|done].
      - intros ->. by apply (Hplain _ Hc), proto_inherited. }
    split.
    - apply Forall_forall. intros c Hc. rewrite Hfield by done. by eexists.
    - unfold fieldSum. apply sumZ_fmap_ext. intros c Hc. simpl.
      by rewrite Hfield. }
  unfold yScaleDomain. f_equal. rewrite transformToStackedData_fmap. fold pd.
  apply maxY_maximum.
  - apply Forall_fmap, Forall_lookup. intros i quarter Hi.
    by destruct (Hrecord i quarter Hi).
  - destruct (last quarters) as [quarter|] eqn:Hlast;
      [|by apply last_None in Hlast].
    rewrite last_lookup in Hlast.
    apply list_elem_of_fmap. exists (stackedRecord pd seriesCategories quarter).
    split; [|apply list_elem_of_fmap; exists quarter; split;
              [done | by eapply list_elem_of_lookup_2]].
    destruct (Hrecord _ _ Hlast) as [_ ->].
    apply sumZ_fmap_ext. intros c Hc. unfold categorySum. fold (zs c).
    rewrite take_ge; [done|]. rewrite (Hlen c Hc).
    destruct quarters; simpl; [done|lia].
  - intros total Htotal.
    apply list_elem_of_fmap in Htotal as (record & -> & Hrecord').
    apply list_elem_of_fmap in Hrecord' as (quarter & -> & Hquarter).
    apply list_elem_of_lookup in Hquarter as [i Hi].
    destruct (Hrecord _ _ Hi) as [_ ->].
    apply sumZ_fmap_le. intros c Hc. unfold categorySum. fold (zs c).
    by apply sumZ_take_le.
Qed.


(** ** Numbers, texts and positions along the pipeline *)



Lemma ToString_settled v :
  ToBoolean v = true ∨ v = JNum 0 → ToString v ≠ "".
Proof.
  intros [Hv| ->]; [|done].
  destruct v as [| |[]|z| |s| |name]; simpl in *; try done.
  - apply pretty_Z_nonempty.
  - by destruct s.
Qed.

Lemma append_nonempty s t : s ≠ "" → s +:+ t ≠ "".
Proof. by destruct s. Qed.

(** A running total that is a text is never the empty text. *)
Lemma jsAdd_text_nonempty x v t :
  jsAdd (jsOr x (JNum 0)) v = JStr t → t ≠ "".
Proof.
  pose proof (ToString_settled _ (jsOr_zero_settled x)) as Hne.
  unfold jsAdd.
  destruct (jsOr x (JNum 0)) as [| |b|z| |s| |f] eqn:Ha, v as [| |b'|z'| |s'| |f'];
    intros Ht;
    try (injection Ht as <-; by apply append_nonempty);
    try destruct b; try destruct b'; discriminate Ht.
Qed.

Lemma jsAdd_text_left s v :
  s ≠ "" → ∃ t, jsAdd (jsOr (JStr s) (JNum 0)) v = JStr t.
Proof.
  intros Hs. unfold jsOr. simpl. destruct s as [|a s]; [done|]. simpl.
  by eexists.
Qed.

(** X17. Once a running total of a category is a text (a text cell has
    been added), every later running total of that category is a text:
    [+=] keeps concatenating. *)
Theorem text_total_stays_text (data : list DataPoint.t) (c : string)
    (k : nat) (p p' : ProcessedDataPoint.t) (s : string) :
  emittedFor c (computeRunningTotals data) !! k = Some p →
  emittedFor c (computeRunningTotals data) !! S k = Some p' →
  ProcessedDataPoint.runningTotal p = JStr s →
  ∃ t, ProcessedDataPoint.runningTotal p' = JStr t.
Proof.
  rewrite emittedFor_computeRunningTotals, computeRunningTotals_emitFrom.
  intros Hp Hp' Hs.
  assert (∀ i q, emitFrom ∅ (ofCategory c data) !! i = Some q →
            ProcessedDataPoint.category q = c) as Hcat.
  { intros i q Hq. apply lookup_emitFrom in Hq as (d & Hd & ->). simpl.
    apply list_elem_of_lookup_2, list_elem_of_filter in Hd. by destruct Hd. }
  destruct (decide (c = "__proto__")) as [Hproto|Hproto].
  { rewrite (emitFrom_proto ∅ (ofCategory c data) k p) in Hs; [done|done|done|].
    by rewrite (Hcat _ _ Hp). }
  assert (s ≠ "") as Hne.
  { destruct k as [|k0].
    - destruct (ofCategory c data) as [|d rest]; [done|].
      pose proof (Hcat 0%nat _ eq_refl) as Hd. simpl in Hd.
      cbn [emitFrom lookup list_lookup] in Hp. cbn zeta in Hp.
      injection Hp as <-. simpl in Hs.
      rewrite totalsAfter_same in Hs by (right; by rewrite Hd).
      by eapply jsAdd_text_nonempty.
    - destruct (lookup_lt_is_Some_2 (emitFrom ∅ (ofCategory c data)) k0) as [p0 Hp0].
      { apply lookup_lt_Some in Hp. lia. }
      rewrite (emitFrom_next ∅ _ k0 p0 p Hp0 Hp) in Hs
        by (by rewrite ?(Hcat _ _ Hp0), ?(Hcat _ _ Hp)).
      by eapply jsAdd_text_nonempty. }
  rewrite (emitFrom_next ∅ _ k p p' Hp Hp')
    by (by rewrite ?(Hcat _ _ Hp), ?(Hcat _ _ Hp')).
  rewrite Hs. by apply jsAdd_text_left.
Qed.

Lemma flatRow_values values quarters quarters' j category :
  length quarters = length quarters' →
  DataPoint.value <$> flatRow values quarters j category
  = DataPoint.value <$> flatRow values quarters' j category.
Proof.
  unfold flatRow. generalize (cell values j). intros f. revert f quarters'.
  induction quarters as [|quarter quarters IH]; intros f [|quarter' quarters'] Hlen;
    simplify_eq/=; [done|].
  f_equal. by apply (IH (f ∘ S)).
Qed.

Lemma flatRecords_values_length values quarters quarters' seriesCategories :
  length quarters = length quarters' →
  DataPoint.value <$> flatRecords quarters seriesCategories values
  = DataPoint.value <$> flatRecords quarters' seriesCategories values.
Proof.
  intros Hlen. unfold flatRecords.
  generalize (flatRow_values values quarters quarters'). intros Hrow.
  generalize (flatRow values quarters) (flatRow values quarters') Hrow.
  clear Hrow. intros f g Hfg. revert f g Hfg.
  induction seriesCategories as [|category rest IH]; intros f g Hfg; [done|].
  cbn [imap concat]. rewrite !fmap_app. f_equal; [by apply Hfg|].
  apply (IH (f ∘ S) (g ∘ S)). intros j c Hl. by apply Hfg.
Qed.

(** X18. Values are bound to periods by position, not by label: the
    values of the flat records depend on how many periods there are and
    not on their labels.  Sorting the period column therefore moves the
    labels and leaves every value at the row index it had. *)
Theorem values_bound_by_position (localeCompare : string → string → Z)
    (quarters seriesCategories : list string)
    (values : DataViewValueColumns) (data : list DataPoint.t) :
  buildDataArray quarters seriesCategories values = Some data →
  ∃ sortedData,
    buildDataArray (arraySort localeCompare quarters) seriesCategories values
      = Some sortedData
    ∧ DataPoint.value <$> sortedData = DataPoint.value <$> data
    ∧ (∀ j i category,
         seriesCategories !! j = Some category → (i < length quarters)%nat →
         DataPoint.quarter <$> sortedData !! (j * length quarters + i)%nat
         = arraySort localeCompare quarters !! i).
Proof.
  intros Hdata.
  pose proof (arraySort_Permutation localeCompare quarters) as Hperm.
  assert (length (arraySort localeCompare quarters) = length quarters) as Hlen
    by (by rewrite Hperm).
  destruct (buildDataArray (arraySort localeCompare quarters) seriesCategories
              values) as [sortedData|] eqn:Hsorted.
  - exists sortedData. split; [done|].
    apply buildDataArray_inv in Hdata, Hsorted. subst data sortedData. split.
    + by apply flatRecords_values_length.
    + intros j i category Hj Hi.
      destruct (lookup_lt_is_Some_2 (arraySort localeCompare quarters) i)
        as [quarter Hquarter]; [lia|].
      rewrite <-Hlen.
      by rewrite (lookup_flatRecords _ _ _ j i category quarter Hj Hquarter),
        Hquarter.
  - apply buildDataArray_None in Hsorted as (j & Hj & Hbad).
    assert (buildDataArray quarters seriesCategories values = None) as Hnone;
      [|congruence].
    apply buildDataArray_None. exists j. split; [done|].
    destruct Hbad as [Hgroup|[Hne Hmeasure]]; [by left|right].
    split; [|done]. intros ->. by apply Hne.
Qed.


(** ** The further properties on concrete inputs *)

Lemma compareCodeUnits_refl a : compareCodeUnits a a = 0%Z.
Proof.
  unfold compareCodeUnits. pose proof (String.compare_antisym a a) as Hanti.
  by destruct (String.compare a a).
Qed.

Lemma compareCodeUnits_eq a b : compareCodeUnits a b = 0%Z → a = b.
Proof.
  unfold compareCodeUnits. intros Hcmp. apply String.compare_eq_iff.
  by destruct (String.compare a b).
Qed.

Lemma compareInitials_swap a b :
  (0 < compareInitials a b)%Z → (compareInitials b a ≤ 0)%Z.
Proof. apply compareCodeUnits_swap. Qed.

Lemma compareInitials_class x a b :
  compareInitials x a = 0%Z → compareInitials x b = 0%Z →
  (compareInitials a b ≤ 0)%Z.
Proof.
  unfold compareInitials. intros Ha%compareCodeUnits_eq Hb%compareCodeUnits_eq.
  rewrite <-Ha, <-Hb, compareCodeUnits_refl. done.
Qed.

Lemma sortQuarters_idempotent_witness :
  unsortedHeap !! 0%nat = Some ["2023Q2"; "2023Q1"]
  ∧ (∀ a b, (0 < compareCodeUnits a b)%Z → (compareCodeUnits b a ≤ 0)%Z)
  ∧ sortQuarters compareCodeUnits 0%nat
      (sortQuarters compareCodeUnits 0%nat unsortedHeap).2
    = sortQuarters compareCodeUnits 0%nat unsortedHeap.
Proof.
  split; [reflexivity|]. split; [exact compareCodeUnits_swap|].
  apply (sortQuarters_idempotent compareCodeUnits 0%nat unsortedHeap
           ["2023Q2"; "2023Q1"] eq_refl).
  exact compareCodeUnits_swap.
Defined.

Lemma sortQuarters_stable_witness :
  tiedHeap !! 0%nat = Some ["b2"; "a1"; "b1"]
  ∧ (∀ a b, compareInitials "b1" a = 0%Z → compareInitials "b1" b = 0%Z →
       (compareInitials a b ≤ 0)%Z)
  ∧ ∃ sorted,
      (sortQuarters compareInitials 0%nat tiedHeap).2 !! 0%nat = Some sorted
      ∧ filter (λ a, compareInitials "b1" a = 0%Z) sorted
        = filter (λ a, compareInitials "b1" a = 0%Z) ["b2"; "a1"; "b1"].
Proof.
  split; [reflexivity|]. split; [exact (compareInitials_class "b1")|].
  exact (sortQuarters_stable compareInitials 0%nat tiedHeap ["b2"; "a1"; "b1"]
           "b1" eq_refl (compareInitials_class "b1")).
Defined.


Lemma computeRunningTotals_recurrence_witness :
  ProcessedDataPoint.runningTotal <$> computeRunningTotals nanData
  = [JNum 4; JNaN; JNum 3]
  ∧ ("A" ∉ objectPrototypeKeys)
  ∧ emittedFor "A" (computeRunningTotals nanData) !! 2%nat
    = Some (processed (point "2023Q3" "A" 3) (JNum 3))
  ∧ ∃ p, emittedFor "A" (computeRunningTotals nanData) !! 1%nat = Some p
         ∧ JNum 3 = jsAdd (jsOr (ProcessedDataPoint.runningTotal p) (JNum 0))
                      (JNum 3).
Proof.
  split; [reflexivity|]. split; [exact plain_A|]. split; [reflexivity|].
  exact (computeRunningTotals_recurrence nanData "A" 2%nat
           (processed (point "2023Q3" "A" 3) (JNum 3)) plain_A eq_refl).
Defined.

Lemma periodMajor_same_categories c :
  c ∈ ["A"; "B"] → ofCategory c basicData = ofCategory c periodMajorData.
Proof.
  intros Hc. repeat (apply elem_of_cons in Hc as [->|Hc]; [reflexivity|]).
  by apply not_elem_of_nil in Hc.
Qed.

Lemma stacked_data_order_free_witness :
  (∀ c, c ∈ ["A"; "B"] → ofCategory c basicData = ofCategory c periodMajorData)
  ∧ transformToStackedData (computeRunningTotals basicData)
      ["2023Q1"; "2023Q2"] ["A"; "B"]
    = transformToStackedData (computeRunningTotals periodMajorData)
        ["2023Q1"; "2023Q2"] ["A"; "B"].
Proof.
  split; [exact periodMajor_same_categories|].
  exact (stacked_data_order_free basicData periodMajorData
           ["2023Q1"; "2023Q2"] ["A"; "B"] periodMajor_same_categories).
Defined.

Lemma stacked_quarter_key_witness :
  ["2023Q1"; "2023Q2"] !! 1%nat = Some "2023Q2"
  ∧ "quarter" ∈ ["A"; "quarter"]
  ∧ ∃ record,
      transformToStackedData
        [processed (point "2023Q2" "quarter" 7) (JNum 7)]
        ["2023Q1"; "2023Q2"] ["A"; "quarter"] !! 1%nat = Some record
      ∧ record !! "quarter" = Some (JNum 7).
Proof.
  split; [reflexivity|]. split; [right; left|].
  destruct (stacked_quarter_key
              [processed (point "2023Q2" "quarter" 7) (JNum 7)]
              ["2023Q1"; "2023Q2"] ["A"; "quarter"] 1%nat "2023Q2" eq_refl)
    as (record & Hrecord & _ & Hover & _).
  exists record. split; [exact Hrecord|]. apply Hover. right; left.
Defined.

Lemma NoDup_two (a b : string) : a ≠ b → NoDup [a; b].
Proof.
  intros Hab. apply NoDup_cons. split; [|apply NoDup_singleton].
  intros Hin. by apply list_elem_of_singleton in Hin.
Qed.

Lemma stacked_field_is_partial_sum_witness :
  buildDataArray ["2023Q1"; "2023Q2"] ["A"; "B"] basicValues = Some basicData
  ∧ NoDup ["2023Q1"; "2023Q2"] ∧ NoDup ["A"; "B"]
  ∧ ["2023Q1"; "2023Q2"] !! 1%nat = Some "2023Q2"
  ∧ "B" ∈ ["A"; "B"]
  ∧ ("B" ∉ objectPrototypeKeys)
  ∧ DataPoint.value <$> ofCategory "B" basicData = JNum <$> [3; 7]%Z
  ∧ exactSums [3; 7]%Z
  ∧ ∃ record,
      transformToStackedData (computeRunningTotals basicData)
        ["2023Q1"; "2023Q2"] ["A"; "B"] !! 1%nat = Some record
      ∧ record !! "B" = Some (JNum (sumZ (take 2 [3; 7]%Z))).
Proof.
  assert (NoDup ["2023Q1"; "2023Q2"]) as Hquarters by (by apply NoDup_two).
  assert (NoDup ["A"; "B"]) as Hcats by (by apply NoDup_two).
  split; [reflexivity|]. split; [exact Hquarters|]. split; [exact Hcats|].
  assert (exactSums [3; 7]%Z) as Hexact by exact_sums.
  split; [reflexivity|]. split; [right; left|]. split; [exact plain_B|].
  split; [reflexivity|]. split; [exact Hexact|].
  apply (stacked_field_is_partial_sum ["2023Q1"; "2023Q2"] ["A"; "B"] basicValues
           basicData 1%nat "2023Q2" "B" [3; 7]%Z eq_refl Hquarters Hcats eq_refl);
    [right; left | exact plain_B | reflexivity | exact Hexact].
Defined.

Lemma update_empty_column_witness :
  tableOf (optionsOf [] bareValues) = Some ({| cat_values := [] |}, bareValues)
  ∧ update compareCodeUnits noStringNumbers (optionsOf [] bareValues)
      staleVisual unsortedHeap
    = (Normal,
       {| target := [ {| svg_width := 300; svg_height := 200;
                         xDomain := []; yDomain := (JNum 0, JNum 0);
                         stackKeys := ["A"]; stackData := [] |} ] |},
       <[fresh (dom unsortedHeap) := []]> unsortedHeap).
Proof.
  split; [reflexivity|].
  exact (update_empty_column compareCodeUnits noStringNumbers
           (optionsOf [] bareValues) staleVisual unsortedHeap
           {| cat_values := [] |} bareValues eq_refl eq_refl).
Defined.

Lemma update_draws_witness :
  tableOf (optionsOf ["2023Q2"; "2023Q1"] basicValues)
  = Some ({| cat_values := ["2023Q2"; "2023Q1"] |}, basicValues)
  ∧ (update compareCodeUnits noStringNumbers
       (optionsOf ["2023Q2"; "2023Q1"] basicValues) staleVisual unsortedHeap).1.1
    = Normal
  ∧ ∃ svg,
      (update compareCodeUnits noStringNumbers
         (optionsOf ["2023Q2"; "2023Q1"] basicValues) staleVisual unsortedHeap).1.2
      = {| target := [svg] |}
      ∧ svg_width svg = 300%Z
      ∧ svg_height svg = 200%Z
      ∧ xDomain svg ≡ₚ ["2023Q2"; "2023Q1"]
      ∧ stackKeys svg = ["A"; "B"]
      ∧ length (stackData svg) = 2%nat.
Proof.
  split; [reflexivity|]. split; [reflexivity|].
  exact (update_draws compareCodeUnits noStringNumbers
           (optionsOf ["2023Q2"; "2023Q1"] basicValues) staleVisual unsortedHeap
           {| cat_values := ["2023Q2"; "2023Q1"] |} basicValues eq_refl eq_refl).
Defined.

Lemma update_throws_witness :
  tableOf (optionsOf ["2023Q1"] bareValues)
  = Some ({| cat_values := ["2023Q1"] |}, bareValues)
  ∧ ["2023Q1"] ≠ []
  ∧ {| name := "A"; group_values := [] |} ∈ grouped bareValues
  ∧ group_values {| name := "A"; group_values := [] |} = []
  ∧ (update compareCodeUnits noStringNumbers (optionsOf ["2023Q1"] bareValues)
       staleVisual unsortedHeap).1
    = (TypeError, {| target := [] |}).
Proof.
  split; [reflexivity|]. split; [discriminate|]. split; [left|].
  split; [reflexivity|].
  apply (update_throws compareCodeUnits noStringNumbers
           (optionsOf ["2023Q1"] bareValues) staleVisual unsortedHeap
           {| cat_values := ["2023Q1"] |} bareValues
           {| name := "A"; group_values := [] |});
    [reflexivity | discriminate | left | reflexivity].
Defined.

Lemma basicData_nonneg :
  Forall (λ d, ∃ z, DataPoint.value d = JNum z ∧ (0 ≤ z)%Z) basicData.
Proof. repeat constructor; eexists; (split; [reflexivity|done]). Qed.

Lemma basicCategories_plain :
  Forall (λ category, category ∉ objectPrototypeKeys) ["A"; "B"].
Proof. repeat constructor; [exact plain_A | exact plain_B]. Qed.

Lemma basicData_total_safe :
  safeInteger (sumZ ((λ c, categorySum c basicData) <$> ["A"; "B"])).
Proof.
  replace (sumZ ((λ c, categorySum c basicData) <$> ["A"; "B"])) with 25%Z
    by reflexivity.
  unfold safeInteger. lia.
Qed.

Lemma domain_is_grand_total_witness :
  buildDataArray ["2023Q1"; "2023Q2"] ["A"; "B"] basicValues = Some basicData
  ∧ NoDup ["2023Q1"; "2023Q2"] ∧ NoDup ["A"; "B"]
  ∧ ["2023Q1"; "2023Q2"] ≠ []
  ∧ Forall (λ category, category ∉ objectPrototypeKeys) ["A"; "B"]
  ∧ Forall (λ d, ∃ z, DataPoint.value d = JNum z ∧ (0 ≤ z)%Z) basicData
  ∧ safeInteger (sumZ ((λ c, categorySum c basicData) <$> ["A"; "B"]))
  ∧ yScaleDomain noStringNumbers
      (transformToStackedData (computeRunningTotals basicData)
         ["2023Q1"; "2023Q2"] ["A"; "B"]) ["A"; "B"]
    = (JNum 0, JNum (sumZ ((λ c, categorySum c basicData) <$> ["A"; "B"]))).
Proof.
  assert (NoDup ["2023Q1"; "2023Q2"]) as Hquarters by (by apply NoDup_two).
  assert (NoDup ["A"; "B"]) as Hcats by (by apply NoDup_two).
  split; [reflexivity|]. split; [exact Hquarters|]. split; [exact Hcats|].
  split; [discriminate|]. split; [exact basicCategories_plain|].
  split; [exact basicData_nonneg|]. split; [exact basicData_total_safe|].
  apply (domain_is_grand_total noStringNumbers ["2023Q1"; "2023Q2"] ["A"; "B"]
           basicValues basicData eq_refl Hquarters Hcats);
    [discriminate | exact basicCategories_plain | exact basicData_nonneg
     | exact basicData_total_safe].
Defined.




Lemma text_total_stays_text_witness :
  emittedFor "A" (computeRunningTotals textData) !! 1%nat
  = Some (processed {| DataPoint.quarter := "2023Q2"; DataPoint.category := "A";
                       DataPoint.value := JStr "n/a" |} (JStr "4n/a"))
  ∧ emittedFor "A" (computeRunningTotals textData) !! 2%nat
    = Some (processed (point "2023Q3" "A" 3) (JStr "4n/a3"))
  ∧ ∃ t, JStr "4n/a3" = JStr t.
Proof.
  split; [reflexivity|]. split; [reflexivity|].
  exact (text_total_stays_text textData "A" 1%nat _
           (processed (point "2023Q3" "A" 3) (JStr "4n/a3")) "4n/a"
           eq_refl eq_refl eq_refl).
Defined.

Lemma values_bound_by_position_witness :
  buildDataArray ["2023Q2"; "2023Q1"] ["A"; "B"] basicValues
  = Some [point "2023Q2" "A" 10; point "2023Q1" "A" 5;
          point "2023Q2" "B" 3; point "2023Q1" "B" 7]
  ∧ ∃ sortedData,
      buildDataArray (arraySort compareCodeUnits ["2023Q2"; "2023Q1"])
        ["A"; "B"] basicValues = Some sortedData
      ∧ DataPoint.value <$> sortedData = [JNum 10; JNum 5; JNum 3; JNum 7]
      ∧ (∀ j i category,
           ["A"; "B"] !! j = Some category →
           (i < length ["2023Q2"; "2023Q1"])%nat →
           DataPoint.quarter <$>
             sortedData !! (j * length ["2023Q2"; "2023Q1"] + i)%nat
           = arraySort compareCodeUnits ["2023Q2"; "2023Q1"] !! i).
Proof.
  split; [reflexivity|].
  exact (values_bound_by_position compareCodeUnits ["2023Q2"; "2023Q1"]
           ["A"; "B"] basicValues _ eq_refl).
Defined.
